(** * Gomoku-AI: the C++ core (src/cpp/core/gobang_core.cpp)

    A shallow embedding of [GobangCore] and proofs about move validation,
    placement, end-of-game detection, pattern scoring, the winning-move
    search and the neighbourhood optimiser.

    Conventions of the embedding.
    - [int] is [Z].  On a square board of side [N] and a position inside it
      every index and counter the code computes lies in [-(N+1) .. N+1], so
      no [int] arithmetic overflows for a side below [INT_MAX].
    - [std::vector<std::vector<int>>] is [list (list Z)].  A subscript outside
      the vector is undefined behaviour in C++; it is the outcome [Undefined]
      of the [exec] monad below.
    - [float] is IEEE-754 binary32, through the Standard Library's
      [SpecFloat] at precision 24 and maximal exponent 128.
    - The only unbounded loop is the [while] of [check_line]; it is run with
      an explicit amount of fuel and [OutOfFuel] is a distinct outcome. *)

From Stdlib Require Import ZArith Lia Bool String SpecFloat.
From stdpp Require Import base list.

Local Open Scope Z_scope.

(** ** Outcomes of running a piece of the program *)

Inductive exec (A : Type) : Type :=
| Done (a : A)
| Undefined
| OutOfFuel.

Arguments Done {A} a.
Arguments Undefined {A}.
Arguments OutOfFuel {A}.

Definition bind {A B : Type} (m : exec A) (k : A -> exec B) : exec B :=
  match m with
  | Done a => k a
  | Undefined => Undefined
  | OutOfFuel => OutOfFuel
  end.

Notation "'do' x <- m ; k" := (bind m (fun x => k))
  (at level 10, x name, m at level 100, k at level 200,
   format "'[v' 'do'  x  <-  m ; '/' k ']'").
Notation "'do' ' p <- m ; k" := (bind m (fun x => let 'p := x in k))
  (at level 10, p strict pattern, m at level 100, k at level 200,
   format "'[v' 'do'  ' p  <-  m ; '/' k ']'").

(** ** binary32 arithmetic *)

Module F32.

Definition prec : Z := 24.
Definition emax : Z := 128.

Definition float32 : Type := spec_float.

Definition zero : float32 := S754_zero false.
Definition add : float32 -> float32 -> float32 := SFadd prec emax.
Definition div : float32 -> float32 -> float32 := SFdiv prec emax.

(** Conversion of an [int] to [float] (round to nearest even). *)
Definition of_int (n : Z) : float32 := binary_normalize prec emax n 0 false.

(** [a > b] on floats: false as soon as one side is a NaN. *)
Definition gt (a b : float32) : bool := SFltb b a.

(** [x == 0.0f]: both signed zeros compare equal to zero. *)
Definition is_zero (x : float32) : bool := SFeqb x zero.

End F32.

Abbreviation float32 := F32.float32.

(** ** Data: header gobang_core.h *)

Record Weights : Type := mkWeights {
  FIVE : float32;
  FOUR : float32;
  BLOCKED_FOUR : float32;
  THREE : float32;
  BLOCKED_THREE : float32;
  TWO : float32;
  BLOCKED_TWO : float32;
  ONE : float32
}.

(** [Weights{}]: value-initialisation sets every field to [+0.0f]. *)
Definition Weights_default : Weights :=
  mkWeights F32.zero F32.zero F32.zero F32.zero
            F32.zero F32.zero F32.zero F32.zero.

Record GameEndResult : Type := mkGameEndResult {
  is_end : bool;
  winner : Z;
  win_line_size : Z;
  win_line : list (Z * Z)
}.

Abbreviation board := (list (list Z)).

(** ** Vector subscripts *)

(** [b[x][y]] as an rvalue. *)
Definition get (b : board) (x y : Z) : exec Z :=
  if (x <? 0) || (y <? 0) then Undefined
  else match b !! Z.to_nat x with
       | None => Undefined
       | Some row =>
           match row !! Z.to_nat y with
           | None => Undefined
           | Some v => Done v
           end
       end.

(** [b[x][y] = v] on a private copy of [b]. *)
Definition set (b : board) (x y : Z) (v : Z) : exec board :=
  if (x <? 0) || (y <? 0) then Undefined
  else match b !! Z.to_nat x with
       | None => Undefined
       | Some row =>
           if decide (Z.to_nat y < length row)%nat
           then Done (<[Z.to_nat x := <[Z.to_nat y := v]> row]> b)
           else Undefined
       end.

(** The bounds test the code writes as
    [x >= 0 && x < board_size && y >= 0 && y < board_size]. *)
Definition in_bounds (x y board_size : Z) : bool :=
  (x >=? 0) && (x <? board_size) && (y >=? 0) && (y <? board_size).

(** ** Counted loops with early exit

    [for_loop n i body] runs [body i], [body (i+1)], ... at most [n] times;
    a body that yields [Some a] leaves the loop (a [return] or a [break]
    carrying [a]), one that yields [None] goes on to the next index. *)

Fixpoint for_loop {A : Type} (n : nat) (i : Z) (body : Z -> exec (option A))
  : exec (option A) :=
  match n with
  | O => Done None
  | S n' =>
      do r <- body i;
      match r with
      | Some a => Done (Some a)
      | None => for_loop n' (i + 1) body
      end
  end.

(** [for (int i = lo; i < hi; ++i) body]. *)
Definition for_range {A : Type} (lo hi : Z) (body : Z -> exec (option A))
  : exec (option A) :=
  for_loop (Z.to_nat (hi - lo)) lo body.

(** ** 1. validate_move *)

Definition validate_move (b : board) (x y current_player board_size : Z)
  : exec (bool * string) :=
  if (x <? 0) || (x >=? board_size) || (y <? 0) || (y >=? board_size)
  then Done (false, "invalid_position"%string)
  else
    do v <- get b x y;
    if negb (v =? 0) then Done (false, "occupied"%string)
    else if negb (current_player =? 1) && negb (current_player =? 2)
         then Done (false, "invalid_player"%string)
         else Done (true, "success"%string).

(** ** 2. place_piece *)

Definition place_piece (b : board) (x y color board_size : Z) : exec board :=
  do new_board <- set b x y color;
  Done new_board.

(** ** 3. check_game_end *)

Definition win_len : Z := 5.

(** The innermost [for (k = 0; k < win_len; ++k)] loop: [at_ k] is the cell
    visited at step [k]; the result is the final [win] flag and [win_line]. *)
Fixpoint window_loop (n : nat) (k : Z) (b : board) (color : Z)
    (at_ : Z -> Z * Z) (line : list (Z * Z)) : exec (bool * list (Z * Z)) :=
  match n with
  | O => Done (true, line)
  | S n' =>
      let '(r, c) := at_ k in
      do v <- get b r c;
      if negb (v =? color) then Done (false, line)
      else window_loop n' (k + 1) b color at_ (line ++ [(r, c)])
  end.

(** The body of the two outer loops at the start cell [(i, j)]. *)
Definition scan_at (b : board) (i j : Z) (at_ : Z -> Z * Z)
  : exec (option GameEndResult) :=
  do color <- get b i j;
  if color =? 0 then Done None
  else
    do '(win, line) <- window_loop (Z.to_nat win_len) 0 b color at_ [];
    if win
    then Done (Some (mkGameEndResult true color win_len line))
    else Done None.

Definition scan_horizontal (b : board) (board_size : Z) :=
  for_range 0 board_size (fun i =>
    for_range 0 (board_size - win_len + 1) (fun j =>
      scan_at b i j (fun k => (i, j + k)))).

Definition scan_vertical (b : board) (board_size : Z) :=
  for_range 0 board_size (fun j =>
    for_range 0 (board_size - win_len + 1) (fun i =>
      scan_at b i j (fun k => (i + k, j)))).

Definition scan_diag_down_right (b : board) (board_size : Z) :=
  for_range 0 (board_size - win_len + 1) (fun i =>
    for_range 0 (board_size - win_len + 1) (fun j =>
      scan_at b i j (fun k => (i + k, j + k)))).

Definition scan_diag_down_left (b : board) (board_size : Z) :=
  for_range 0 (board_size - win_len + 1) (fun i =>
    for_range (win_len - 1) board_size (fun j =>
      scan_at b i j (fun k => (i + k, j - k)))).

(** The final double loop computing [is_full]; leaving the loops early
    carries [is_full = false]. *)
Definition board_is_full (b : board) (board_size : Z) : exec bool :=
  do r <- for_range 0 board_size (fun i =>
            for_range 0 board_size (fun j =>
              do v <- get b i j;
              if v =? 0 then Done (Some tt) else Done None));
  Done (match r with Some _ => false | None => true end).

Definition check_game_end (b : board) (board_size : Z) : exec GameEndResult :=
  let result := mkGameEndResult false 0 0 [] in
  do h <- scan_horizontal b board_size;
  match h with
  | Some r => Done r
  | None =>
  do v <- scan_vertical b board_size;
  match v with
  | Some r => Done r
  | None =>
  do d1 <- scan_diag_down_right b board_size;
  match d1 with
  | Some r => Done r
  | None =>
  do d2 <- scan_diag_down_left b board_size;
  match d2 with
  | Some r => Done r
  | None =>
  do is_full <- board_is_full b board_size;
  if is_full
  then Done (mkGameEndResult true 0 (win_line_size result) (win_line result))
  else Done result
  end end end end.

(** ** Helpers: check_line and get_pattern_score *)

(** The [while] loop of [check_line]; [count] is the running counter. *)
Fixpoint check_line_loop (fuel : nat) (b : board)
    (x y dx dy color board_size count : Z) : exec Z :=
  match fuel with
  | O => OutOfFuel
  | S fuel' =>
      if in_bounds x y board_size then
        do v <- get b x y;
        if v =? color
        then check_line_loop fuel' b (x + dx) (y + dy) dx dy color board_size
                             (count + 1)
        else Done count
      else Done count
  end.

Definition check_line (fuel : nat) (b : board)
    (x y dx dy color board_size : Z) : exec Z :=
  check_line_loop fuel b x y dx dy color board_size 0.

Definition dirs : list (Z * Z) := [(0, 1); (1, 0); (1, 1); (1, -1)].

(** [in-bounds && board[x][y] == opponent], evaluated left to right. *)
Definition holds_opponent (b : board) (x y opponent board_size : Z)
  : exec bool :=
  if in_bounds x y board_size
  then do v <- get b x y; Done (v =? opponent)
  else Done false.

(** The [if / else if] chain adding one weight to [score]. *)
Definition add_pattern (score : float32) (weights : Weights)
    (total : Z) (blocked : bool) : float32 :=
  if total >=? 5 then F32.add score (FIVE weights)
  else if total =? 4
  then F32.add score (if blocked then BLOCKED_FOUR weights else FOUR weights)
  else if total =? 3
  then F32.add score (if blocked then BLOCKED_THREE weights else THREE weights)
  else if total =? 2
  then F32.add score (if blocked then BLOCKED_TWO weights else TWO weights)
  else if total =? 1 then F32.add score (ONE weights)
  else score.

(** One iteration of [for (auto& dir : dirs)]. *)
Definition pattern_step (fuel : nat) (b : board) (x y color : Z)
    (weights : Weights) (board_size : Z) (score : float32) (dir : Z * Z)
  : exec float32 :=
  let opponent := if color =? 1 then 2 else 1 in
  let '(dx, dy) := dir in
  do forward <- check_line fuel b (x + dx) (y + dy) dx dy color board_size;
  do backward <-
     check_line fuel b (x - dx) (y - dy) (- dx) (- dy) color board_size;
  let total := forward + backward + 1 in
  let fx := x + (forward + 1) * dx in
  let fy := y + (forward + 1) * dy in
  let bx := x - (backward + 1) * dx in
  let by_ := y - (backward + 1) * dy in
  do front <- holds_opponent b fx fy opponent board_size;
  do blocked <-
     (if front then Done true
      else holds_opponent b bx by_ opponent board_size);
  Done (add_pattern score weights total blocked).

Fixpoint pattern_loop (fuel : nat) (b : board) (x y color : Z)
    (weights : Weights) (board_size : Z) (ds : list (Z * Z))
    (score : float32) : exec float32 :=
  match ds with
  | [] => Done score
  | dir :: ds' =>
      do score' <- pattern_step fuel b x y color weights board_size score dir;
      pattern_loop fuel b x y color weights board_size ds' score'
  end.

Definition get_pattern_score (fuel : nat) (b : board) (x y color : Z)
    (weights : Weights) (board_size : Z) : exec float32 :=
  pattern_loop fuel b x y color weights board_size dirs F32.zero.

(** ** 4. evaluate_move *)

Definition evaluate_move (fuel : nat) (b : board) (x y color : Z)
    (weights : Weights) (board_size : Z) : exec float32 :=
  do temp_board <- set b x y color;
  get_pattern_score fuel temp_board x y color weights board_size.

(** ** 5. find_winning_move *)

Definition find_winning_move (b : board) (color board_size : Z)
  : exec (Z * Z) :=
  do r <- for_range 0 board_size (fun i =>
            for_range 0 board_size (fun j =>
              do v <- get b i j;
              if negb (v =? 0) then Done None
              else
                do temp_board <- set b i j color;
                do result <- check_game_end temp_board board_size;
                if is_end result && (winner result =? color)
                then Done (Some (i, j))
                else Done None));
  Done (match r with Some p => p | None => (-1, -1) end).

(** ** 6. mcts_optimize *)

(** The arrays [dx] and [dy], paired index by index. *)
Definition neighbour_offsets : list (Z * Z) :=
  [(-1, -1); (0, -1); (1, -1); (-1, 0); (1, 0); (-1, 1); (0, 1); (1, 1)].

(** The loop [for (d = 0; d < 8; ++d)] that extends [candidates]. *)
Fixpoint collect_candidates (b : board) (init_move : Z * Z) (board_size : Z)
    (offsets : list (Z * Z)) (candidates : list (Z * Z))
  : exec (list (Z * Z)) :=
  match offsets with
  | [] => Done candidates
  | (dx, dy) :: rest =>
      let x := fst init_move + dx in
      let y := snd init_move + dy in
      if in_bounds x y board_size then
        do v <- get b x y;
        if v =? 0
        then collect_candidates b init_move board_size rest
                                (candidates ++ [(x, y)])
        else collect_candidates b init_move board_size rest candidates
      else collect_candidates b init_move board_size rest candidates
  end.

(** The loop [for (iter = 0; iter < iterations; ++iter)]. *)
Fixpoint accumulate_score (fuel : nat) (n : nat) (b : board) (move : Z * Z)
    (color : Z) (weights : Weights) (board_size : Z) (score : float32)
  : exec float32 :=
  match n with
  | O => Done score
  | S n' =>
      do temp_board <- set b (fst move) (snd move) color;
      do s <- evaluate_move fuel temp_board (fst move) (snd move) color
                            weights board_size;
      accumulate_score fuel n' b move color weights board_size
                       (F32.add score s)
  end.

(** The literal [-1e9]: ten to the ninth is exactly representable. *)
Definition minus_1e9 : float32 := F32.of_int (-1000000000).

(** The loop [for (auto& move : candidates)] with its running best. *)
Fixpoint best_candidate (fuel : nat) (b : board) (color iterations : Z)
    (weights : Weights) (board_size : Z) (candidates : list (Z * Z))
    (best_score : float32) (best_move : Z * Z) : exec (Z * Z) :=
  match candidates with
  | [] => Done best_move
  | move :: rest =>
      do total <- accumulate_score fuel (Z.to_nat iterations) b move color
                                   weights board_size F32.zero;
      let score := F32.div total (F32.of_int iterations) in
      if F32.gt score best_score
      then best_candidate fuel b color iterations weights board_size rest
                          score move
      else best_candidate fuel b color iterations weights board_size rest
                          best_score best_move
  end.

(** The body of [mcts_optimize] with the weight record it hands to
    [evaluate_move] taken as a parameter. *)
Definition mcts_optimize_with (weights : Weights) (fuel : nat) (b : board)
    (init_move : Z * Z) (color depth iterations board_size : Z)
  : exec (Z * Z) :=
  do candidates <-
     collect_candidates b init_move board_size neighbour_offsets [init_move];
  best_candidate fuel b color iterations weights board_size candidates
                 minus_1e9 init_move.

(** [mcts_optimize] itself: the source passes [Weights{}]. *)
Definition mcts_optimize (fuel : nat) (b : board) (init_move : Z * Z)
    (color depth iterations board_size : Z) : exec (Z * Z) :=
  mcts_optimize_with Weights_default fuel b init_move color depth iterations
                     board_size.

(** * Vocabulary of the specification *)

(** A square board of side [N]: [N] rows of [N] cells. *)
Definition square (b : board) (N : Z) : Prop :=
  Z.of_nat (length b) = N /\ Forall (fun row => Z.of_nat (length row) = N) b.

(** Position [(x, y)] lies on a board of side [N]. *)
Definition inside (N x y : Z) : Prop := 0 <= x < N /\ 0 <= y < N.

(** Every cell of the board is nonzero. *)
Definition filled (b : board) (N : Z) : Prop :=
  forall x y, inside N x y -> get b x y <> Done 0.

(** Every cell of the board is empty. *)
Definition all_empty (b : board) (N : Z) : Prop :=
  forall x y, inside N x y -> get b x y = Done 0.

Definition is_player (c : Z) : Prop := c = 1 \/ c = 2.

(** ** Five-cell windows *)

Inductive axis : Type := Horizontal | Vertical | DownRight | DownLeft.

(** The [k]-th cell of the window of axis [a] that starts at [(i, j)]. *)
Definition cell_at (a : axis) (i j k : Z) : Z * Z :=
  match a with
  | Horizontal => (i, j + k)
  | Vertical => (i + k, j)
  | DownRight => (i + k, j + k)
  | DownLeft => (i + k, j - k)
  end.

Definition window_cells (a : axis) (i j : Z) : list (Z * Z) :=
  map (cell_at a i j) [0; 1; 2; 3; 4].

(** The window fits on the board: all five of its cells are inside. *)
Definition window_inside (N : Z) (a : axis) (i j : Z) : Prop :=
  forall k, 0 <= k < 5 -> inside N (fst (cell_at a i j k)) (snd (cell_at a i j k)).

(** The window wins for [c]: [c] is nonzero and all five cells hold [c]. *)
Definition window_wins (b : board) (a : axis) (i j c : Z) : Prop :=
  c <> 0 /\
  forall k, 0 <= k < 5 ->
            get b (fst (cell_at a i j k)) (snd (cell_at a i j k)) = Done c.

(** No window of the board wins. *)
Definition no_five (b : board) (N : Z) : Prop :=
  forall a i j c, window_inside N a i j -> ~ window_wins b a i j c.

(** No window of axis [a] wins. *)
Definition no_five_on (b : board) (N : Z) (a : axis) : Prop :=
  forall i j c, window_inside N a i j -> ~ window_wins b a i j c.

(** The cells of the board hold only 0, 1 or 2. *)
Definition cells_valid (b : board) (N : Z) : Prop :=
  forall x y v, inside N x y -> get b x y = Done v -> v = 0 \/ is_player v.

(** No window of the board is a five of player 1 or of player 2. *)
Definition no_player_five (b : board) (N : Z) : Prop :=
  forall a i j c, is_player c -> window_inside N a i j ->
                  ~ window_wins b a i j c.

(** ** Scan order *)

Definition axis_rank (a : axis) : Z :=
  match a with
  | Horizontal => 0
  | Vertical => 1
  | DownRight => 2
  | DownLeft => 3
  end.

(** Within one axis the scan is ordered by the pair (outer loop variable,
    inner loop variable): the vertical pass has the column outermost, the
    three others the row. *)
Definition outer_index (a : axis) (i j : Z) : Z :=
  match a with Vertical => j | _ => i end.

Definition inner_index (a : axis) (i j : Z) : Z :=
  match a with Vertical => i | _ => j end.

Definition earlier_in_pass (a : axis) (i' j' i j : Z) : Prop :=
  outer_index a i' j' < outer_index a i j \/
  (outer_index a i' j' = outer_index a i j /\
   inner_index a i' j' < inner_index a i j).

(** Window [(a', i', j')] is examined before window [(a, i, j)]. *)
Definition scanned_before (a' : axis) (i' j' : Z) (a : axis) (i j : Z) : Prop :=
  axis_rank a' < axis_rank a \/
  (a' = a /\ earlier_in_pass a i' j' i j).

(** [(a, i, j)] is the first winning window of the scan. *)
Definition first_five (b : board) (N : Z) (a : axis) (i j c : Z) : Prop :=
  window_inside N a i j /\
  window_wins b a i j c /\
  forall a' i' j' c',
    window_inside N a' i' j' -> scanned_before a' i' j' a i j ->
    ~ window_wins b a' i' j' c'.

(** The three shapes of a [GameEndResult]. *)
Definition Win (c : Z) (line : list (Z * Z)) : GameEndResult :=
  mkGameEndResult true c win_len line.
Definition Draw : GameEndResult := mkGameEndResult true 0 0 [].
Definition Ongoing : GameEndResult := mkGameEndResult false 0 0 [].

(** What one pass over axis [a] can produce: nothing when no window of the
    axis wins, otherwise the win of the first winning window of the pass. *)
Definition pass_outcome (b : board) (N : Z) (a : axis)
    (r : exec (option GameEndResult)) : Prop :=
  (r = Done None /\ no_five_on b N a)
  \/
  (exists i j c,
      window_inside N a i j /\ window_wins b a i j c /\
      (forall i' j' c', window_inside N a i' j' ->
                        earlier_in_pass a i' j' i j ->
                        ~ window_wins b a i' j' c') /\
      r = Done (Some (Win c (window_cells a i j)))).

(** ** Example boards *)

Definition empty_board (n : nat) : board := replicate n (replicate n 0).

(** [b] with a stone of colour [c] on each position of [ps]. *)
Definition with_stones (c : Z) (ps : list (Z * Z)) (b : board) : board :=
  foldl (fun acc p =>
           match set acc (fst p) (snd p) c with
           | Done acc' => acc'
           | _ => acc
           end) b ps.

(** Side 5: colour 1 fills row 0 and column 0, so a horizontal and a
    vertical five are present together. *)
Definition cross_board : board :=
  [ [1; 1; 1; 1; 1];
    [1; 0; 0; 0; 0];
    [1; 0; 0; 0; 0];
    [1; 0; 0; 0; 0];
    [1; 0; 0; 0; 0] ].

(** Side 9: two down-left fives of colour 1 that both start in row 0, at
    columns 4 and 8, and nothing else. *)
Definition twin_diagonals : board :=
  [ [0; 0; 0; 0; 1; 0; 0; 0; 1];
    [0; 0; 0; 1; 0; 0; 0; 1; 0];
    [0; 0; 1; 0; 0; 0; 1; 0; 0];
    [0; 1; 0; 0; 0; 1; 0; 0; 0];
    [1; 0; 0; 0; 1; 0; 0; 0; 0];
    [0; 0; 0; 0; 0; 0; 0; 0; 0];
    [0; 0; 0; 0; 0; 0; 0; 0; 0];
    [0; 0; 0; 0; 0; 0; 0; 0; 0];
    [0; 0; 0; 0; 0; 0; 0; 0; 0] ].

(** Side 5, completely filled, without any five. *)
Definition full_board : board :=
  [ [1; 1; 2; 2; 1];
    [2; 2; 1; 1; 2];
    [1; 1; 2; 2; 1];
    [2; 2; 1; 1; 2];
    [1; 1; 2; 2; 1] ].

(** Side 5: four stones of colour 1 at (0,1) .. (0,4). *)
Definition four_and_gap : board :=
  [ [0; 1; 1; 1; 1];
    [0; 0; 0; 0; 0];
    [0; 0; 0; 0; 0];
    [0; 0; 0; 0; 0];
    [0; 0; 0; 0; 0] ].

(** Side 15, empty except four stones of colour 1 at (7,4) .. (7,7). *)
Definition open_four : board :=
  with_stones 1 [(7, 4); (7, 5); (7, 6); (7, 7)] (empty_board 15).

(** ** The fourth pass as the specification describes it

    Within a start row the specification has the start column run from
    [N-1] down to 4, so that of two winning down-left windows of one start
    row the one with the larger start column would be reported. *)
Definition down_left_larger_column_first : Prop :=
  forall (b : board) N i j1 j2 c1 c2,
    square b N ->
    no_five_on b N Horizontal -> no_five_on b N Vertical ->
    no_five_on b N DownRight ->
    window_inside N DownLeft i j1 -> window_inside N DownLeft i j2 ->
    j1 < j2 ->
    window_wins b DownLeft i j1 c1 -> window_wins b DownLeft i j2 c2 ->
    (forall i' j' c', window_inside N DownLeft i' j' ->
                      window_wins b DownLeft i' j' c' ->
                      i' = i /\ (j' = j1 \/ j' = j2)) ->
    check_game_end b N = Done (Win c2 (window_cells DownLeft i j2)).

(** ** Winning placements *)

(** Placing [c] on [(i, j)] gives a board that [check_game_end] reports as
    ended with winner [c]. *)
Definition wins_by_placing (b : board) (N c i j : Z) : Prop :=
  exists b' r, set b i j c = Done b' /\ check_game_end b' N = Done r /\
               is_end r = true /\ winner r = c.

(** [(i, j)] is an empty cell of the board on which placing [c] wins. *)
Definition winning_cell (b : board) (N c i j : Z) : Prop :=
  inside N i j /\ get b i j = Done 0 /\ wins_by_placing b N c i j.

(** Row-major order: row ascending, then column ascending. *)
Definition row_major_before (i' j' i j : Z) : Prop :=
  i' < i \/ (i' = i /\ j' < j).

(** ** Patterns through a stone *)

(** [n] is the number of consecutive cells of colour [c] strictly beyond
    [(x, y)] in direction [(dx, dy)]: the cells at distance 1 .. n are on the
    board and hold [c], the cell at distance n+1 is off the board or holds
    something else. *)
Definition run_length (b : board) (N c x y dx dy n : Z) : Prop :=
  0 <= n /\
  (forall t, 1 <= t <= n ->
             inside N (x + t * dx) (y + t * dy) /\
             get b (x + t * dx) (y + t * dy) = Done c) /\
  ~ (inside N (x + (n + 1) * dx) (y + (n + 1) * dy) /\
     get b (x + (n + 1) * dx) (y + (n + 1) * dy) = Done c).

(** The colour opposing [c], for [c] in {1, 2}. *)
Definition opposing (c : Z) : Z := 3 - c.

(** The cell [(x, y)] blocks a run of [c]: it is on the board and holds the
    opposing colour. *)
Definition blocks (b : board) (N c x y : Z) : Prop :=
  inside N x y /\ get b x y = Done (opposing c).

(** The weight selected by the length of the line and its blocked flag. *)
Definition pattern_weight (w : Weights) (total : Z) (blocked : bool)
  : float32 :=
  if 5 <=? total then FIVE w
  else if total =? 4 then (if blocked then BLOCKED_FOUR w else FOUR w)
  else if total =? 3 then (if blocked then BLOCKED_THREE w else THREE w)
  else if total =? 2 then (if blocked then BLOCKED_TWO w else TWO w)
  else ONE w.

(** [s] is the weight of the line through [(x, y)] along the axis
    [(dx, dy)] for colour [c]. *)
Definition axis_weight (b : board) (N x y c : Z) (w : Weights) (dx dy : Z)
    (s : float32) : Prop :=
  exists forward backward blocked,
    run_length b N c x y dx dy forward /\
    run_length b N c x y (- dx) (- dy) backward /\
    (blocked = true <->
     blocks b N c (x + (forward + 1) * dx) (y + (forward + 1) * dy) \/
     blocks b N c (x - (backward + 1) * dx) (y - (backward + 1) * dy)) /\
    s = pattern_weight w (forward + backward + 1) blocked.

(** A step of one cell along a row, a column or a diagonal. *)
Definition unit_dir (dx dy : Z) : Prop :=
  -1 <= dx <= 1 /\ -1 <= dy <= 1 /\ (dx <> 0 \/ dy <> 0).

(** An upper bound on the number of cells of the board met when walking from
    [(x, y)] in direction [(dx, dy)]. *)
Definition room (N x y dx dy : Z) : Z :=
  if dx =? 1 then N - x
  else if dx =? -1 then x + 1
  else if dy =? 1 then N - y
  else y + 1.

(** ** The optimiser as the specification describes it *)

(** Every field of the record compares equal to zero. *)
Definition weights_all_zero (w : Weights) : Prop :=
  F32.is_zero (FIVE w) = true /\ F32.is_zero (FOUR w) = true /\
  F32.is_zero (BLOCKED_FOUR w) = true /\ F32.is_zero (THREE w) = true /\
  F32.is_zero (BLOCKED_THREE w) = true /\ F32.is_zero (TWO w) = true /\
  F32.is_zero (BLOCKED_TWO w) = true /\ F32.is_zero (ONE w) = true.

(** The cell is on the board and empty. *)
Definition free_cell (b : board) (N : Z) (p : Z * Z) : bool :=
  in_bounds (fst p) (snd p) N &&
  match get b (fst p) (snd p) with
  | Done v => v =? 0
  | _ => false
  end.

(** The seed, then those of its eight neighbours, in the order of
    [neighbour_offsets], that are on the board and empty. *)
Definition candidates_spec (b : board) (N : Z) (seed : Z * Z)
  : list (Z * Z) :=
  seed :: List.filter (free_cell b N)
                      (map (fun d => (fst seed + fst d, snd seed + snd d))
                           neighbour_offsets).

(** The arithmetic mean of [reps] evaluations of the candidate [p]. *)
Definition mean_score (fuel : nat) (b : board) (c : Z) (w : Weights)
    (N reps : Z) (p : Z * Z) : exec float32 :=
  do v <- evaluate_move fuel b (fst p) (snd p) c w N;
  Done (F32.div (fold_left F32.add (repeat v (Z.to_nat reps)) F32.zero)
                (F32.of_int reps)).

Fixpoint mean_scores (fuel : nat) (b : board) (c : Z) (w : Weights)
    (N reps : Z) (ps : list (Z * Z)) : exec (list ((Z * Z) * float32)) :=
  match ps with
  | [] => Done []
  | p :: ps' =>
      do s <- mean_score fuel b c w N reps p;
      do rest <- mean_scores fuel b c w N reps ps';
      Done ((p, s) :: rest)
  end.

(** The running best [(position, score)]: it is replaced only by a strictly
    greater score, so among equal scores the earliest entry stays. *)
Fixpoint running_best (best : (Z * Z) * float32)
    (l : list ((Z * Z) * float32)) : (Z * Z) * float32 :=
  match l with
  | [] => best
  | x :: rest =>
      if F32.gt (snd x) (snd best)
      then running_best x rest
      else running_best best rest
  end.

(** [optimize(board, seed, color, weights, repetitions)] of the
    specification: the running best over the scored candidates, started at
    the seed. *)
Definition optimize_spec (fuel : nat) (b : board) (seed : Z * Z)
    (c : Z) (w : Weights) (reps N : Z) : exec (Z * Z) :=
  do scored <- mean_scores fuel b c w N reps (candidates_spec b N seed);
  Done (match scored with
        | first :: rest => fst (running_best first rest)
        | [] => seed
        end).

(** A record whose fields are all zero, some of them [-0.0f]. *)
Definition negative_zero_weights : Weights :=
  mkWeights (S754_zero true) F32.zero (S754_zero true) F32.zero
            F32.zero (S754_zero true) F32.zero (S754_zero true).

(** Increasing weights: ONE = 1, BLOCKED_TWO = 5, TWO = 10, ... *)
Definition sample_weights : Weights :=
  mkWeights (F32.of_int 100000) (F32.of_int 10000) (F32.of_int 1000)
            (F32.of_int 100) (F32.of_int 50) (F32.of_int 10)
            (F32.of_int 5) (F32.of_int 1).

(** The optimiser as the specification has it: the result is the best
    candidate under the weights supplied by the caller. *)
Definition optimize_uses_caller_weights : Prop :=
  forall fuel (b : board) N seed c w reps depth,
    square b N -> inside N (fst seed) (snd seed) -> is_player c ->
    1 <= reps -> N < Z.of_nat fuel ->
    mcts_optimize fuel b seed c depth reps N
    = optimize_spec fuel b seed c w reps N.

(** ** Relabelling the colours of a board *)

(** Every cell value [v] replaced by [f v]. *)
Definition relabel (f : Z -> Z) (b : board) : board :=
  fmap (M := list) (fmap (M := list) f) b.

(** The same result with the winner relabelled. *)
Definition relabel_result (f : Z -> Z) (r : GameEndResult) : GameEndResult :=
  mkGameEndResult (is_end r) (f (winner r)) (win_line_size r) (win_line r).

(** Player 1 and player 2 exchanged, every other value kept. *)
Definition swap_colours (v : Z) : Z :=
  if v =? 1 then 2 else if v =? 2 then 1 else v.


(** [(x, y)] is the first empty cell of the board in row-major order. *)
Definition first_empty (b : board) (N x y : Z) : Prop :=
  inside N x y /\ get b x y = Done 0 /\
  forall x' y', inside N x' y' -> row_major_before x' y' x y ->
                get b x' y' <> Done 0.

(** * Proofs *)

(** ** Subscripts on a square board *)

Lemma in_bounds_true x y N : in_bounds x y N = true <-> inside N x y.
Proof. unfold in_bounds, inside. lia. Qed.

Lemma in_bounds_false x y N : in_bounds x y N = false <-> ~ inside N x y.
Proof.
  rewrite <- in_bounds_true. destruct (in_bounds x y N); split; congruence.
Qed.

Lemma square_row (b : board) N x row :
  square b N -> b !! x = Some row -> Z.of_nat (length row) = N.
Proof.
  intros [_ Hrows] Hx. exact (Forall_lookup_1 _ _ _ _ Hrows Hx).
Qed.

Lemma get_inside (b : board) N x y :
  square b N -> inside N x y -> exists v, get b x y = Done v.
Proof.
  intros Hsq [Hx Hy]. unfold get.
  replace ((x <? 0) || (y <? 0)) with false by lia.
  destruct (lookup_lt_is_Some_2 b (Z.to_nat x)) as [row Hrow].
  { destruct Hsq as [Hlen _]. lia. }
  rewrite Hrow.
  destruct (lookup_lt_is_Some_2 row (Z.to_nat y)) as [v Hv].
  { pose proof (square_row _ _ _ _ Hsq Hrow). lia. }
  rewrite Hv. eauto.
Qed.

Lemma get_Done_inside (b : board) N x y v :
  square b N -> get b x y = Done v -> inside N x y.
Proof.
  intros Hsq. unfold get.
  destruct ((x <? 0) || (y <? 0)) eqn:Hneg; [discriminate|].
  destruct (b !! Z.to_nat x) as [row|] eqn:Hrow; [|discriminate].
  destruct (row !! Z.to_nat y) as [w|] eqn:Hw; [|discriminate].
  intros _.
  pose proof (lookup_lt_Some _ _ _ Hrow).
  pose proof (lookup_lt_Some _ _ _ Hw).
  pose proof (square_row _ _ _ _ Hsq Hrow).
  destruct Hsq as [Hlen _]. unfold inside. lia.
Qed.

(** Writing one cell of a square board: the write is defined, the result is
    square, the cell reads back, every other subscript is unaffected. *)
Lemma set_inside (b : board) N x y v :
  square b N -> inside N x y ->
  exists b', set b x y v = Done b' /\ square b' N /\
             get b' x y = Done v /\
             forall x' y', (x', y') <> (x, y) -> get b' x' y' = get b x' y'.
Proof.
  intros Hsq [Hx Hy]. unfold set.
  replace ((x <? 0) || (y <? 0)) with false by lia.
  destruct (lookup_lt_is_Some_2 b (Z.to_nat x)) as [row Hrow].
  { destruct Hsq as [Hlen _]. lia. }
  rewrite Hrow.
  pose proof (square_row _ _ _ _ Hsq Hrow) as Hlen_row.
  destruct (decide (Z.to_nat y < length row)%nat) as [Hlt|]; [|lia].
  eexists; split; [reflexivity|].
  pose proof (lookup_lt_Some _ _ _ Hrow) as Hxlt.
  split; [|split].
  - destruct Hsq as [Hlen Hrows]. split.
    + rewrite length_insert. exact Hlen.
    + apply Forall_insert; [exact Hrows|].
      rewrite length_insert. exact Hlen_row.
  - unfold get. replace ((x <? 0) || (y <? 0)) with false by lia.
    rewrite list_lookup_insert_eq by exact Hxlt.
    rewrite list_lookup_insert_eq by exact Hlt. reflexivity.
  - intros x' y' Hne. unfold get.
    destruct ((x' <? 0) || (y' <? 0)) eqn:Hneg; [reflexivity|].
    destruct (decide (Z.to_nat x = Z.to_nat x')) as [Heq|Hneq].
    + rewrite <- Heq, Hrow.
      rewrite list_lookup_insert_eq by exact Hxlt.
      rewrite list_lookup_insert_ne; [reflexivity|].
      intros Hy'. apply Hne. f_equal; lia.
    + rewrite list_lookup_insert_ne by exact Hneq. reflexivity.
Qed.

(** ** Counted loops *)

(** A loop whose bodies all return either finds nothing at every index, or
    stops at the least index whose body yields a value. *)
Lemma for_loop_cases {A : Type} (body : Z -> exec (option A)) n lo :
  (forall k, lo <= k < lo + Z.of_nat n -> exists r, body k = Done r) ->
  (for_loop n lo body = Done None /\
   forall k, lo <= k < lo + Z.of_nat n -> body k = Done None)
  \/
  (exists k a, lo <= k < lo + Z.of_nat n /\ body k = Done (Some a) /\
               (forall k', lo <= k' < k -> body k' = Done None) /\
               for_loop n lo body = Done (Some a)).
Proof.
  revert lo. induction n as [|n IH]; intros lo Htot.
  - left. split; [reflexivity|]. intros k Hk. lia.
  - destruct (Htot lo ltac:(lia)) as [r Hr]. cbn [for_loop]. rewrite Hr.
    cbn [bind]. destruct r as [a|].
    + right. exists lo, a. repeat split; auto; intros; lia.
    + destruct (IH (lo + 1)) as [[Hnone Hall]|(k & a & Hk & Hbody & Hbefore & Hres)].
      * intros k Hk. apply Htot. lia.
      * left. split; [exact Hnone|]. intros k Hk.
        destruct (Z.eq_dec k lo) as [->|]; [exact Hr|]. apply Hall. lia.
      * right. exists k, a. repeat split; try lia; try assumption.
        intros k' Hk'.
        destruct (Z.eq_dec k' lo) as [->|]; [exact Hr|]. apply Hbefore. lia.
Qed.

Lemma for_range_cases {A : Type} (body : Z -> exec (option A)) lo hi :
  (forall k, lo <= k < hi -> exists r, body k = Done r) ->
  (for_range lo hi body = Done None /\
   forall k, lo <= k < hi -> body k = Done None)
  \/
  (exists k a, lo <= k < hi /\ body k = Done (Some a) /\
               (forall k', lo <= k' < k -> body k' = Done None) /\
               for_range lo hi body = Done (Some a)).
Proof.
  intros Htot. unfold for_range.
  destruct (for_loop_cases body (Z.to_nat (hi - lo)) lo)
    as [[Hnone Hall]|(k & a & Hk & Hbody & Hbefore & Hres)].
  - intros k Hk. apply Htot. lia.
  - left. split; [exact Hnone|]. intros k Hk. apply Hall. lia.
  - right. exists k, a. repeat split; try lia; assumption.
Qed.

(** Two nested loops visit the pairs [(u, v)] in lexicographic order. *)
Lemma nested_range_cases {A : Type} (body : Z -> Z -> exec (option A))
    lo1 hi1 lo2 hi2 :
  (forall u v, lo1 <= u < hi1 -> lo2 <= v < hi2 ->
               exists r, body u v = Done r) ->
  let loops := for_range lo1 hi1 (fun u => for_range lo2 hi2 (body u)) in
  (loops = Done None /\
   forall u v, lo1 <= u < hi1 -> lo2 <= v < hi2 -> body u v = Done None)
  \/
  (exists u v a,
      lo1 <= u < hi1 /\ lo2 <= v < hi2 /\ body u v = Done (Some a) /\
      (forall u' v', lo1 <= u' < hi1 -> lo2 <= v' < hi2 ->
                     u' < u \/ (u' = u /\ v' < v) ->
                     body u' v' = Done None) /\
      loops = Done (Some a)).
Proof.
  intros Htot loops. subst loops.
  assert (Hinner : forall u, lo1 <= u < hi1 ->
            (for_range lo2 hi2 (body u) = Done None /\
             forall v, lo2 <= v < hi2 -> body u v = Done None)
            \/
            (exists v a, lo2 <= v < hi2 /\ body u v = Done (Some a) /\
               (forall v', lo2 <= v' < v -> body u v' = Done None) /\
               for_range lo2 hi2 (body u) = Done (Some a))).
  { intros u Hu. apply for_range_cases. intros v Hv. now apply Htot. }
  destruct (for_range_cases (fun u => for_range lo2 hi2 (body u)) lo1 hi1)
    as [[Hnone Hall]|(u & a & Hu & Hbody & Hbefore & Hres)].
  - intros u Hu.
    destruct (Hinner u Hu) as [[H _]|(v & a & _ & _ & _ & H)]; eauto.
  - left. split; [exact Hnone|]. intros u v Hu Hv.
    destruct (Hinner u Hu) as [[_ H]|(v' & a & _ & _ & _ & H)].
    + now apply H.
    + specialize (Hall u Hu). cbv beta in Hall. congruence.
  - right. cbv beta in Hbody.
    destruct (Hinner u Hu) as [[H _]|(v & a' & Hv & Hb & Hbef & H)];
      [congruence|].
    assert (a' = a) as -> by congruence.
    exists u, v, a. repeat split; try lia; try assumption.
    intros u' v' Hu' Hv' [Hlt|[-> Hlt]].
    + specialize (Hbefore u' ltac:(lia)). cbv beta in Hbefore.
      destruct (Hinner u' Hu') as [[_ H']|(v'' & a'' & _ & _ & _ & H')].
      * now apply H'.
      * congruence.
    + apply Hbef. lia.
Qed.

(** ** One window *)

Lemma cell_at_0 a i j : cell_at a i j 0 = (i, j).
Proof. destruct a; cbn; f_equal; lia. Qed.

Lemma window_loop_cases (b : board) color at_ n k line :
  (forall t, k <= t < k + Z.of_nat n ->
             exists v, get b (fst (at_ t)) (snd (at_ t)) = Done v) ->
  ((forall t, k <= t < k + Z.of_nat n ->
              get b (fst (at_ t)) (snd (at_ t)) = Done color) /\
   window_loop n k b color at_ line
   = Done (true, line ++ map at_ (seqZ k (Z.of_nat n))))
  \/
  ((exists t, k <= t < k + Z.of_nat n /\
              get b (fst (at_ t)) (snd (at_ t)) <> Done color) /\
   exists l, window_loop n k b color at_ line = Done (false, l)).
Proof.
  revert k line. induction n as [|n IH]; intros k line Htot.
  - left. split; [intros t Ht; lia|]. cbn. now rewrite app_nil_r.
  - cbn [window_loop].
    destruct (Htot k ltac:(lia)) as [v Hv].
    destruct (at_ k) as [r c] eqn:Hat. cbn [fst snd] in Hv.
    rewrite Hv. cbn [bind].
    destruct (Z.eqb_spec v color) as [->|Hne]; cbn [negb].
    + destruct (IH (k + 1) (line ++ [(r, c)])) as [[Hall Hres]|[Hex Hres]].
      * intros t Ht. apply Htot. lia.
      * left. split.
        -- intros t Ht. destruct (Z.eq_dec t k) as [->|].
           ++ rewrite Hat. exact Hv.
           ++ apply Hall. lia.
        -- rewrite Hres. f_equal. f_equal.
           rewrite (seqZ_cons k) by lia. cbn [map]. rewrite Hat.
           rewrite <- app_assoc. cbn [app].
           replace (Z.succ k) with (k + 1) by lia.
           replace (Z.pred (Z.of_nat (S n))) with (Z.of_nat n) by lia.
           reflexivity.
      * right. split; [|exact Hres].
        destruct Hex as (t & Ht & Hbad). exists t. split; [lia|exact Hbad].
    + right. split; [|eauto].
      exists k. split; [lia|]. rewrite Hat. cbn [fst snd]. congruence.
Qed.

(** The loop body at a window that fits on the board: it returns a win for
    the colour of the five cells exactly when the window wins. *)
Lemma scan_at_cases (b : board) N a i j :
  square b N -> window_inside N a i j ->
  (exists c, window_wins b a i j c /\
             scan_at b i j (cell_at a i j)
             = Done (Some (Win c (window_cells a i j))))
  \/
  ((forall c, ~ window_wins b a i j c) /\
   scan_at b i j (cell_at a i j) = Done None).
Proof.
  intros Hsq Hin. unfold scan_at.
  assert (Htot : forall t, 0 <= t < 0 + Z.of_nat (Z.to_nat win_len) ->
            exists v, get b (fst (cell_at a i j t)) (snd (cell_at a i j t))
                      = Done v).
  { intros t Ht. eapply get_inside; [exact Hsq|]. apply Hin.
    unfold win_len in Ht. lia. }
  destruct (Htot 0 ltac:(unfold win_len; lia)) as [color Hcolor].
  rewrite cell_at_0 in Hcolor. cbn [fst snd] in Hcolor.
  rewrite Hcolor. cbn [bind].
  destruct (Z.eqb_spec color 0) as [->|Hnz].
  - right. split; [|reflexivity]. intros c [Hc Hall].
    specialize (Hall 0 ltac:(lia)). rewrite cell_at_0 in Hall.
    cbn [fst snd] in Hall. congruence.
  - destruct (window_loop_cases b color (cell_at a i j)
                (Z.to_nat win_len) 0 [] Htot) as [[Hall Hres]|[Hex [l Hres]]].
    + left. exists color. split.
      * split; [exact Hnz|]. intros k Hk. apply Hall.
        unfold win_len. lia.
      * rewrite Hres. reflexivity.
    + right. rewrite Hres. split; [|reflexivity].
      intros c [Hc Hall]. destruct Hex as (t & Ht & Hbad).
      assert (c = color) as ->.
      { specialize (Hall 0 ltac:(lia)). rewrite cell_at_0 in Hall.
        cbn [fst snd] in Hall. congruence. }
      apply Hbad. apply Hall. unfold win_len in Ht. lia.
Qed.

(** ** One pass over an axis *)

(** The common shape of the four scans: [start u v] is the start cell
    visited when the outer variable is [u] and the inner one [v]. *)
Lemma pass_cases (b : board) N a lo1 hi1 lo2 hi2 (start : Z -> Z -> Z * Z) :
  square b N ->
  (forall u v, lo1 <= u < hi1 -> lo2 <= v < hi2 ->
     window_inside N a (fst (start u v)) (snd (start u v)) /\
     outer_index a (fst (start u v)) (snd (start u v)) = u /\
     inner_index a (fst (start u v)) (snd (start u v)) = v) ->
  (forall i j, window_inside N a i j ->
     lo1 <= outer_index a i j < hi1 /\ lo2 <= inner_index a i j < hi2 /\
     start (outer_index a i j) (inner_index a i j) = (i, j)) ->
  pass_outcome b N a
    (for_range lo1 hi1 (fun u => for_range lo2 hi2 (fun v =>
       scan_at b (fst (start u v)) (snd (start u v))
               (cell_at a (fst (start u v)) (snd (start u v)))))).
Proof.
  intros Hsq Hsound Hcomplete. unfold pass_outcome.
  set (body := fun u v =>
      scan_at b (fst (start u v)) (snd (start u v))
              (cell_at a (fst (start u v)) (snd (start u v)))).
  assert (Hbody : forall u v, lo1 <= u < hi1 -> lo2 <= v < hi2 ->
            (exists c, window_wins b a (fst (start u v)) (snd (start u v)) c /\
                       body u v = Done (Some (Win c
                         (window_cells a (fst (start u v)) (snd (start u v))))))
            \/ ((forall c, ~ window_wins b a (fst (start u v)) (snd (start u v)) c)
                /\ body u v = Done None)).
  { intros u v Hu Hv. apply scan_at_cases with (N := N); [exact Hsq|].
    now apply Hsound. }
  destruct (nested_range_cases body lo1 hi1 lo2 hi2)
    as [[Hnone Hall]|(u & v & r & Hu & Hv & Hr & Hbefore & Hres)].
  - intros u v Hu Hv.
    destruct (Hbody u v Hu Hv) as [(c & _ & H)|[_ H]]; eauto.
  - left. split; [exact Hnone|]. intros i j c Hin Hwin.
    destruct (Hcomplete i j Hin) as (Ho & Hi & Hstart).
    specialize (Hall _ _ Ho Hi).
    destruct (Hbody _ _ Ho Hi) as [(c' & _ & H)|[Hno _]]; [congruence|].
    rewrite Hstart in Hno. cbn [fst snd] in Hno. exact (Hno c Hwin).
  - right.
    destruct (Hbody u v Hu Hv) as [(c & Hwin & H)|[_ H]]; [|congruence].
    destruct (Hsound u v Hu Hv) as (Hin & Hou & Hiv).
    exists (fst (start u v)), (snd (start u v)), c.
    split; [exact Hin|]. split; [exact Hwin|]. split.
    + intros i' j' c' Hin' Hearlier Hwin'.
      destruct (Hcomplete i' j' Hin') as (Ho & Hi & Hstart).
      unfold earlier_in_pass in Hearlier. rewrite Hou, Hiv in Hearlier.
      specialize (Hbefore _ _ Ho Hi Hearlier).
      destruct (Hbody _ _ Ho Hi) as [(c'' & _ & H')|[Hno _]]; [congruence|].
      rewrite Hstart in Hno. cbn [fst snd] in Hno. exact (Hno c' Hwin').
    + assert (r = Win c (window_cells a (fst (start u v)) (snd (start u v))))
        as -> by congruence.
      exact Hres.
Qed.

(** On which start cells a window of each axis fits. *)
Lemma window_inside_iff N a i j :
  window_inside N a i j <->
  match a with
  | Horizontal => 0 <= i < N /\ 0 <= j /\ j + 4 < N
  | Vertical => 0 <= i /\ i + 4 < N /\ 0 <= j < N
  | DownRight => 0 <= i /\ i + 4 < N /\ 0 <= j /\ j + 4 < N
  | DownLeft => 0 <= i /\ i + 4 < N /\ 4 <= j < N
  end.
Proof.
  unfold window_inside, inside. split.
  - intros H. pose proof (H 0 ltac:(lia)) as H0.
    pose proof (H 4 ltac:(lia)) as H4.
    destruct a; cbn [cell_at fst snd] in *; lia.
  - intros H k Hk. destruct a; cbn [cell_at fst snd] in *; lia.
Qed.

Ltac pass_ranges :=
  unfold win_len;
  first
    [ intros u v Hu Hv; cbn [fst snd outer_index inner_index];
      rewrite window_inside_iff; lia
    | intros i j Hin; apply window_inside_iff in Hin;
      cbn [outer_index inner_index]; repeat split; lia ].

Lemma scan_horizontal_outcome (b : board) N :
  square b N -> pass_outcome b N Horizontal (scan_horizontal b N).
Proof.
  intros Hsq.
  exact (pass_cases b N Horizontal 0 N 0 (N - win_len + 1)
           (fun u v => (u, v)) Hsq ltac:(pass_ranges) ltac:(pass_ranges)).
Qed.

Lemma scan_vertical_outcome (b : board) N :
  square b N -> pass_outcome b N Vertical (scan_vertical b N).
Proof.
  intros Hsq.
  exact (pass_cases b N Vertical 0 N 0 (N - win_len + 1)
           (fun u v => (v, u)) Hsq ltac:(pass_ranges) ltac:(pass_ranges)).
Qed.

Lemma scan_diag_down_right_outcome (b : board) N :
  square b N -> pass_outcome b N DownRight (scan_diag_down_right b N).
Proof.
  intros Hsq.
  exact (pass_cases b N DownRight 0 (N - win_len + 1) 0 (N - win_len + 1)
           (fun u v => (u, v)) Hsq ltac:(pass_ranges) ltac:(pass_ranges)).
Qed.

Lemma scan_diag_down_left_outcome (b : board) N :
  square b N -> pass_outcome b N DownLeft (scan_diag_down_left b N).
Proof.
  intros Hsq.
  exact (pass_cases b N DownLeft 0 (N - win_len + 1) (win_len - 1) N
           (fun u v => (u, v)) Hsq ltac:(pass_ranges) ltac:(pass_ranges)).
Qed.

(** ** The final fullness scan *)

Lemma board_is_full_cases (b : board) N :
  square b N ->
  (board_is_full b N = Done true /\ filled b N)
  \/
  (board_is_full b N = Done false /\
   exists x y, inside N x y /\ get b x y = Done 0).
Proof.
  intros Hsq.
  pose (body := fun i j : Z =>
         do v <- get b i j; if v =? 0 then Done (Some tt) else Done None).
  change (board_is_full b N)
    with (do r <- for_range 0 N (fun u => for_range 0 N (body u));
          Done (match r with Some _ => false | None => true end)).
  assert (Hbody : forall i j, 0 <= i < N -> 0 <= j < N ->
            (get b i j = Done 0 /\ body i j = Done (Some tt)) \/
            (get b i j <> Done 0 /\ body i j = Done None)).
  { intros i j Hi Hj. subst body. cbv beta.
    destruct (get_inside b N i j Hsq (conj Hi Hj)) as [v Hv]. rewrite Hv.
    cbn [bind]. destruct (Z.eqb_spec v 0) as [->|Hnz]; [left|right];
      split; congruence. }
  destruct (nested_range_cases body 0 N 0 N)
    as [[Hnone Hall]|(u & v & r & Hu & Hv & Hr & _ & Hres)].
  - intros u v Hu Hv. destruct (Hbody u v Hu Hv) as [[_ H]|[_ H]]; eauto.
  - left. rewrite Hnone. split; [reflexivity|].
    intros x y [Hx Hy]. specialize (Hall x y Hx Hy).
    destruct (Hbody x y Hx Hy) as [[_ H]|[H _]]; [congruence|exact H].
  - right. rewrite Hres. split; [reflexivity|].
    exists u, v. split; [split; assumption|].
    destruct (Hbody u v Hu Hv) as [[H _]|[_ H]]; [exact H|congruence].
Qed.

(** ** check_game_end as a whole *)

Lemma no_five_from_axes (b : board) N :
  no_five_on b N Horizontal -> no_five_on b N Vertical ->
  no_five_on b N DownRight -> no_five_on b N DownLeft -> no_five b N.
Proof. intros H1 H2 H3 H4 a. destruct a; assumption. Qed.

(** The three outcomes of [check_game_end] on a square board. *)
Lemma check_game_end_cases (b : board) N :
  square b N ->
  (exists a i j c, first_five b N a i j c /\
                   check_game_end b N = Done (Win c (window_cells a i j)))
  \/
  (no_five b N /\ filled b N /\ check_game_end b N = Done Draw)
  \/
  (no_five b N /\ (exists x y, inside N x y /\ get b x y = Done 0) /\
   check_game_end b N = Done Ongoing).
Proof.
  intros Hsq. unfold check_game_end.
  destruct (scan_horizontal_outcome b N Hsq)
    as [[-> Hh]|(i & j & c & Hin & Hwin & Hfirst & ->)]; cbn [bind].
  2:{ left. exists Horizontal, i, j, c. split; [|reflexivity].
      split; [exact Hin|]. split; [exact Hwin|].
      intros a' i' j' c' Hin' [Hrank|[-> He]].
      - destruct a'; cbn in Hrank; lia.
      - now apply Hfirst. }
  destruct (scan_vertical_outcome b N Hsq)
    as [[-> Hv]|(i & j & c & Hin & Hwin & Hfirst & ->)]; cbn [bind].
  2:{ left. exists Vertical, i, j, c. split; [|reflexivity].
      split; [exact Hin|]. split; [exact Hwin|].
      intros a' i' j' c' Hin' [Hrank|[-> He]].
      - destruct a'; cbn in Hrank; try lia. now apply Hh.
      - now apply Hfirst. }
  destruct (scan_diag_down_right_outcome b N Hsq)
    as [[-> Hd1]|(i & j & c & Hin & Hwin & Hfirst & ->)]; cbn [bind].
  2:{ left. exists DownRight, i, j, c. split; [|reflexivity].
      split; [exact Hin|]. split; [exact Hwin|].
      intros a' i' j' c' Hin' [Hrank|[-> He]].
      - destruct a'; cbn in Hrank; try lia; [now apply Hh|now apply Hv].
      - now apply Hfirst. }
  destruct (scan_diag_down_left_outcome b N Hsq)
    as [[-> Hd2]|(i & j & c & Hin & Hwin & Hfirst & ->)]; cbn [bind].
  2:{ left. exists DownLeft, i, j, c. split; [|reflexivity].
      split; [exact Hin|]. split; [exact Hwin|].
      intros a' i' j' c' Hin' [Hrank|[-> He]].
      - destruct a'; cbn in Hrank; try lia;
          [now apply Hh|now apply Hv|now apply Hd1].
      - now apply Hfirst. }
  right.
  pose proof (no_five_from_axes b N Hh Hv Hd1 Hd2) as Hno.
  destruct (board_is_full_cases b N Hsq) as [[-> Hfull]|[-> Hzero]];
    cbn [bind].
  - left. repeat split; try assumption.
  - right. repeat split; try assumption.
Qed.

(** ** The scan order is total, so the first winning window is unique *)

Lemma scanned_trichotomy a i j a' i' j' :
  scanned_before a i j a' i' j' \/ (a = a' /\ i = i' /\ j = j') \/
  scanned_before a' i' j' a i j.
Proof.
  unfold scanned_before, earlier_in_pass.
  destruct a, a'; cbn [axis_rank outer_index inner_index];
    try (left; left; lia); try (right; right; left; lia).
  all: destruct (Z.lt_trichotomy i i') as [?|[?|?]];
       destruct (Z.lt_trichotomy j j') as [?|[?|?]];
       try (left; right; split; [reflexivity|lia]);
       try (right; right; right; split; [reflexivity|lia]);
       right; left; repeat split; lia.
Qed.

Lemma window_wins_color (b : board) a i j c c' :
  window_wins b a i j c -> window_wins b a i j c' -> c = c'.
Proof.
  intros [_ H] [_ H']. specialize (H 0 ltac:(lia)).
  specialize (H' 0 ltac:(lia)). congruence.
Qed.

Lemma first_five_unique (b : board) N a i j c a' i' j' c' :
  first_five b N a i j c -> first_five b N a' i' j' c' ->
  a = a' /\ i = i' /\ j = j' /\ c = c'.
Proof.
  intros (Hin & Hwin & Hfirst) (Hin' & Hwin' & Hfirst').
  destruct (scanned_trichotomy a i j a' i' j') as [H|[(-> & -> & ->)|H]].
  - exfalso. exact (Hfirst' _ _ _ _ Hin H Hwin).
  - repeat split. eapply window_wins_color; eassumption.
  - exfalso. exact (Hfirst _ _ _ _ Hin' H Hwin').
Qed.

Lemma window_cells_inj a i j a' i' j' :
  window_cells a i j = window_cells a' i' j' -> a = a' /\ i = i' /\ j = j'.
Proof.
  unfold window_cells. cbn [map]. intros H.
  injection H as H0 H1 _.
  destruct a, a'; cbn [cell_at] in H0, H1;
    injection H0 as ? ?; injection H1 as ? ?;
    first [ repeat split; lia | exfalso; lia ].
Qed.

(** The first winning window gives the result ... *)
Lemma check_game_end_first (b : board) N a i j c :
  square b N -> first_five b N a i j c ->
  check_game_end b N = Done (Win c (window_cells a i j)).
Proof.
  intros Hsq Hfirst.
  destruct (check_game_end_cases b N Hsq)
    as [(a' & i' & j' & c' & Hfirst' & Hres)|[(Hno & _)|(Hno & _)]].
  - destruct (first_five_unique _ _ _ _ _ _ _ _ _ _ Hfirst Hfirst')
      as (-> & -> & -> & ->). exact Hres.
  - destruct Hfirst as (Hin & Hwin & _). destruct (Hno _ _ _ _ Hin Hwin).
  - destruct Hfirst as (Hin & Hwin & _). destruct (Hno _ _ _ _ Hin Hwin).
Qed.

(** ... and a reported win is the first winning window. *)
Lemma first_five_of_result (b : board) N a i j c :
  square b N ->
  check_game_end b N = Done (Win c (window_cells a i j)) ->
  first_five b N a i j c.
Proof.
  intros Hsq Hres.
  destruct (check_game_end_cases b N Hsq)
    as [(a' & i' & j' & c' & Hfirst' & Hres')|[(_ & _ & H)|(_ & _ & H)]].
  - rewrite Hres in Hres'.
    pose proof (f_equal (fun r => match r with
                                  | Done x => winner x
                                  | _ => 0
                                  end) Hres') as Hc.
    pose proof (f_equal (fun r => match r with
                                  | Done x => win_line x
                                  | _ => []
                                  end) Hres') as Hcells.
    cbn in Hc, Hcells. subst c'.
    apply window_cells_inj in Hcells as (-> & -> & ->). exact Hfirst'.
  - rewrite Hres in H. discriminate.
  - rewrite Hres in H. discriminate.
Qed.

(** ** Facts about the example boards *)

Ltac square_example := split; [reflexivity | repeat constructor].

(** Refute [window_wins] at a concrete window: read its five cells. *)
Ltac refute_window Hwin :=
  let Hc := fresh "Hc" in
  let Hall := fresh "Hall" in
  destruct Hwin as [Hc Hall];
  pose proof (Hall 0 ltac:(lia));
  pose proof (Hall 1 ltac:(lia));
  pose proof (Hall 2 ltac:(lia));
  pose proof (Hall 3 ltac:(lia));
  pose proof (Hall 4 ltac:(lia));
  clear Hall; vm_compute in *; congruence.

(** Prove [window_wins] at a concrete window. *)
Ltac prove_window :=
  split; [lia|];
  let k := fresh "k" in
  let Hk := fresh "Hk" in
  intros k Hk;
  assert (k = 0 \/ k = 1 \/ k = 2 \/ k = 3 \/ k = 4)
    as [-> | [-> | [-> | [-> | ->]]]] by lia;
  reflexivity.

Lemma cross_board_square : square cross_board 5.
Proof. square_example. Qed.

Lemma cross_board_first_five : first_five cross_board 5 Horizontal 0 0 1.
Proof.
  split; [apply window_inside_iff; lia|]. split; [prove_window|].
  intros a' i' j' c' Hin [Hrank|[-> Hearlier]].
  - destruct a'; cbn in Hrank; lia.
  - apply window_inside_iff in Hin. unfold earlier_in_pass in Hearlier.
    cbn in Hearlier. lia.
Qed.

Lemma full_board_square : square full_board 5.
Proof. square_example. Qed.

Lemma twin_diagonals_square : square twin_diagonals 9.
Proof. square_example. Qed.

Lemma twin_diagonals_result :
  check_game_end twin_diagonals 9 = Done (Win 1 (window_cells DownLeft 0 4)).
Proof. vm_compute. reflexivity. Qed.

Lemma twin_diagonals_earlier_axes a :
  axis_rank a < axis_rank DownLeft -> no_five_on twin_diagonals 9 a.
Proof.
  intros Hrank i j c Hin.
  pose proof (first_five_of_result _ _ _ _ _ _ twin_diagonals_square
                twin_diagonals_result) as (_ & _ & Hfirst).
  apply Hfirst; [exact Hin|]. left. exact Hrank.
Qed.

Lemma twin_diagonals_only_two i j c :
  window_inside 9 DownLeft i j -> window_wins twin_diagonals DownLeft i j c ->
  i = 0 /\ (j = 4 \/ j = 8).
Proof.
  intros Hin Hwin. apply window_inside_iff in Hin.
  assert (i = 0 \/ i = 1 \/ i = 2 \/ i = 3 \/ i = 4)
    as [-> | [-> | [-> | [-> | ->]]]] by lia;
  assert (j = 4 \/ j = 5 \/ j = 6 \/ j = 7 \/ j = 8)
    as [-> | [-> | [-> | [-> | ->]]]] by lia;
  first [ split; [reflexivity|]; (left + right); reflexivity
        | exfalso; refute_window Hwin ].
Qed.

(** ** C3 *)

(** C3. On a square board [check_game_end] reports the first window, in the
    order horizontal (row, then start column ascending), vertical,
    down-right, down-left, whose five cells are equal and nonzero: the result
    is a win of that colour whose line is exactly the five cells of that
    window, in scan order.  In particular, as soon as some horizontal window
    wins, the reported line is a horizontal one, whatever vertical or
    diagonal fives the board also holds. *)
Theorem check_game_end_scan_priority (b : board) N :
  square b N ->
  (forall a i j c,
      first_five b N a i j c ->
      check_game_end b N = Done (Win c (window_cells a i j)) /\
      length (window_cells a i j) = 5%nat)
  /\
  (forall i j c,
      window_inside N Horizontal i j -> window_wins b Horizontal i j c ->
      exists i' j' c',
        first_five b N Horizontal i' j' c' /\
        check_game_end b N = Done (Win c' (window_cells Horizontal i' j'))).
Proof.
  intros Hsq. split.
  - intros a i j c Hfirst. split; [|reflexivity].
    now apply check_game_end_first.
  - intros i j c Hin Hwin.
    destruct (check_game_end_cases b N Hsq)
      as [(a' & i' & j' & c' & Hfirst' & Hres)|[(Hno & _)|(Hno & _)]].
    + destruct a'; try (exists i', j', c'; split; assumption); exfalso;
        destruct Hfirst' as (_ & _ & Hbefore);
        apply (Hbefore Horizontal i j c Hin); try exact Hwin;
        left; cbn; lia.
    + destruct (Hno _ _ _ _ Hin Hwin).
    + destruct (Hno _ _ _ _ Hin Hwin).
Qed.

Lemma check_game_end_scan_priority_witness :
  window_wins cross_board Vertical 0 0 1 /\
  check_game_end cross_board 5 = Done (Win 1 (window_cells Horizontal 0 0)).
Proof.
  split; [prove_window|].
  apply (proj1 (check_game_end_scan_priority cross_board 5 cross_board_square)).
  exact cross_board_first_five.
Defined.

(** ** C4 *)

Lemma no_five_players (b : board) N :
  cells_valid b N -> (no_five b N <-> no_player_five b N).
Proof.
  intros Hvalid. split.
  - intros Hno a i j c _ Hin. now apply Hno.
  - intros Hno a i j c Hin Hwin.
    assert (Hc : c = 0 \/ is_player c).
    { destruct Hwin as [_ Hall]. specialize (Hall 0 ltac:(lia)).
      apply (Hvalid _ _ _ (Hin 0 ltac:(lia)) Hall). }
    destruct Hc as [->|Hc].
    + destruct Hwin as [Hnz _]. contradiction.
    + exact (Hno a i j c Hc Hin Hwin).
Qed.

Lemma draw_ongoing_cases (b : board) N :
  square b N ->
  ((exists r, check_game_end b N = Done r /\ is_end r = true /\ winner r = 0)
   <-> filled b N /\ no_five b N)
  /\
  ((exists r, check_game_end b N = Done r /\ is_end r = false)
   <-> (exists x y, inside N x y /\ get b x y = Done 0) /\ no_five b N).
Proof.
  intros Hsq.
  destruct (check_game_end_cases b N Hsq)
    as [(a & i & j & c & (Hin & Hwin & _) & Hres)
       |[(Hno & Hfull & Hres)|(Hno & Hzero & Hres)]].
  - split; split.
    + intros (r & Hr & Hend & Hw). rewrite Hres in Hr. injection Hr as <-.
      cbn in Hw. destruct Hwin as [Hc _]. contradiction.
    + intros [_ Hno]. destruct (Hno _ _ _ _ Hin Hwin).
    + intros (r & Hr & Hend). rewrite Hres in Hr. injection Hr as <-.
      cbn in Hend. discriminate.
    + intros [_ Hno]. destruct (Hno _ _ _ _ Hin Hwin).
  - split; split.
    + intros _. split; assumption.
    + intros _. exists Draw. repeat split; try reflexivity. exact Hres.
    + intros (r & Hr & Hend). rewrite Hres in Hr. injection Hr as <-.
      cbn in Hend. discriminate.
    + intros [(x & y & Hxy & Hget) _]. destruct (Hfull x y Hxy Hget).
  - split; split.
    + intros (r & Hr & Hend & _). rewrite Hres in Hr. injection Hr as <-.
      cbn in Hend. discriminate.
    + intros [Hfull _]. destruct Hzero as (x & y & Hxy & Hget).
      destruct (Hfull x y Hxy Hget).
    + intros _. split; assumption.
    + intros _. exists Ongoing. repeat split; try reflexivity. exact Hres.
Qed.


(** C4. On a square board [check_game_end] returns a draw (ended, winner 0)
    exactly when every cell is nonzero and no window wins, and returns an
    unfinished game (not ended) exactly when some cell is 0 and no window
    wins.  A window wins when its five cells are equal and nonzero; on a
    board whose cells are 0, 1 or 2 that is a five of player 1 or of
    player 2. *)
Theorem check_game_end_draw_ongoing (b : board) N :
  square b N ->
  ((exists r, check_game_end b N = Done r /\ is_end r = true /\ winner r = 0)
   <-> filled b N /\ no_five b N)
  /\
  ((exists r, check_game_end b N = Done r /\ is_end r = false)
   <-> (exists x y, inside N x y /\ get b x y = Done 0) /\ no_five b N)
  /\
  (cells_valid b N -> (no_five b N <-> no_player_five b N)).
Proof.
  intros Hsq. destruct (draw_ongoing_cases b N Hsq) as [Hdraw Hongoing].
  split; [exact Hdraw|]. split; [exact Hongoing|]. apply no_five_players.
Qed.

Lemma check_game_end_draw_ongoing_witness :
  filled full_board 5 /\ no_five full_board 5.
Proof.
  apply (proj1 (proj1 (check_game_end_draw_ongoing full_board 5
                         full_board_square))).
  exists Draw. repeat split; reflexivity.
Defined.

(** ** C2 *)

(** C2, as stated, fails: on [twin_diagonals] the two winning down-left
    windows start in row 0 at columns 4 and 8, no other window wins, and the
    reported line is the one starting at column 4. *)
Lemma down_left_larger_column_first_fails : ~ down_left_larger_column_first.
Proof.
  intros Hclaim.
  specialize (Hclaim twin_diagonals 9 0 4 8 1 1 twin_diagonals_square).
  rewrite twin_diagonals_result in Hclaim.
  assert (Hbad : Done (Win 1 (window_cells DownLeft 0 4))
                 = Done (Win 1 (window_cells DownLeft 0 8))).
  { apply Hclaim.
    - apply twin_diagonals_earlier_axes. cbn. lia.
    - apply twin_diagonals_earlier_axes. cbn. lia.
    - apply twin_diagonals_earlier_axes. cbn. lia.
    - apply window_inside_iff. lia.
    - apply window_inside_iff. lia.
    - lia.
    - prove_window.
    - prove_window.
    - exact twin_diagonals_only_two. }
  discriminate Hbad.
Qed.

(** C2, amended.  The fourth pass examines the down-left windows with the
    start row ascending and, within a start row, the start column ascending
    from 4 to N-1.  So when no window of the three earlier passes wins and
    two down-left windows of one start row win, no winning down-left window
    starting in an earlier row or further left in that row, the window with
    the smaller start column is reported, not the other one. *)
Theorem down_left_smaller_column_first (b : board) N i j1 j2 c1 c2 :
  square b N ->
  no_five_on b N Horizontal -> no_five_on b N Vertical ->
  no_five_on b N DownRight ->
  window_inside N DownLeft i j1 -> window_inside N DownLeft i j2 ->
  j1 < j2 ->
  window_wins b DownLeft i j1 c1 -> window_wins b DownLeft i j2 c2 ->
  (forall i' j' c', window_inside N DownLeft i' j' ->
                    window_wins b DownLeft i' j' c' ->
                    i < i' \/ (i' = i /\ j1 <= j')) ->
  check_game_end b N = Done (Win c1 (window_cells DownLeft i j1)) /\
  check_game_end b N <> Done (Win c2 (window_cells DownLeft i j2)).
Proof.
  intros Hsq Hh Hv Hd Hin1 Hin2 Hlt Hwin1 Hwin2 Hleast.
  assert (Hres : check_game_end b N
                 = Done (Win c1 (window_cells DownLeft i j1))).
  { apply check_game_end_first; [exact Hsq|].
    split; [exact Hin1|]. split; [exact Hwin1|].
    intros a' i' j' c' Hin' [Hrank|[-> Hearlier]] Hwin'.
    - destruct a'; cbn in Hrank; try lia;
        [exact (Hh _ _ _ Hin' Hwin')|exact (Hv _ _ _ Hin' Hwin')
        |exact (Hd _ _ _ Hin' Hwin')].
    - specialize (Hleast _ _ _ Hin' Hwin').
      unfold earlier_in_pass in Hearlier. cbn in Hearlier. lia. }
  split; [exact Hres|]. rewrite Hres. intros Heq.
  pose proof (f_equal (fun r => match r with
                                | Done x => win_line x
                                | _ => []
                                end) Heq) as Hcells.
  change (window_cells DownLeft i j1 = window_cells DownLeft i j2) in Hcells.
  apply window_cells_inj in Hcells. lia.
Qed.

Lemma down_left_smaller_column_first_witness :
  check_game_end twin_diagonals 9 = Done (Win 1 (window_cells DownLeft 0 4)) /\
  check_game_end twin_diagonals 9 <> Done (Win 1 (window_cells DownLeft 0 8)).
Proof.
  apply (down_left_smaller_column_first twin_diagonals 9 0 4 8 1 1).
  - exact twin_diagonals_square.
  - apply twin_diagonals_earlier_axes. cbn. lia.
  - apply twin_diagonals_earlier_axes. cbn. lia.
  - apply twin_diagonals_earlier_axes. cbn. lia.
  - apply window_inside_iff. lia.
  - apply window_inside_iff. lia.
  - lia.
  - prove_window.
  - prove_window.
  - intros i' j' c' Hin' Hwin'.
    destruct (twin_diagonals_only_two _ _ _ Hin' Hwin') as [-> Hj]. lia.
Defined.

(** ** C7 *)

(** C7. On a square board [validate_move] succeeds exactly when the position
    is inside the board, its cell is empty and the player code is 1 or 2.
    Otherwise it returns, as a value, one of three reasons, decided in the
    order bounds, occupancy, player: a position outside the board gives
    "invalid_position" whatever the player code; an occupied cell inside the
    board gives "occupied" whatever the player code; only then does a bad
    player code give "invalid_player". *)
Theorem validate_move_order (b : board) N x y p :
  square b N ->
  (validate_move b x y p N = Done (true, "success"%string)
   <-> inside N x y /\ get b x y = Done 0 /\ is_player p)
  /\
  (~ inside N x y ->
   validate_move b x y p N = Done (false, "invalid_position"%string))
  /\
  (inside N x y -> get b x y <> Done 0 ->
   validate_move b x y p N = Done (false, "occupied"%string))
  /\
  (inside N x y -> get b x y = Done 0 -> ~ is_player p ->
   validate_move b x y p N = Done (false, "invalid_player"%string))
  /\
  (validate_move b x y p N = Done (true, "success"%string) \/
   validate_move b x y p N = Done (false, "invalid_position"%string) \/
   validate_move b x y p N = Done (false, "occupied"%string) \/
   validate_move b x y p N = Done (false, "invalid_player"%string)).
Proof.
  intros Hsq. unfold validate_move, is_player.
  destruct ((x <? 0) || (x >=? N) || (y <? 0) || (y >=? N)) eqn:Hout.
  - assert (Hnot : ~ inside N x y) by (unfold inside; lia).
    repeat split; intros; try tauto; try discriminate; auto 6.
  - assert (Hin : inside N x y) by (unfold inside; lia).
    destruct (get_inside b N x y Hsq Hin) as [v Hv]. rewrite Hv. cbn [bind].
    destruct (Z.eqb_spec v 0) as [->|Hnz]; cbn [negb].
    + destruct (Z.eqb_spec p 1) as [->|Hp1]; cbn [negb andb];
        [|destruct (Z.eqb_spec p 2) as [->|Hp2]; cbn [negb]];
        repeat split; intros; try tauto; try discriminate; try lia; auto 6.
    + repeat split; intros; try tauto; try discriminate; try congruence;
        auto 6.
      destruct H as (_ & H & _). congruence.
Qed.

Lemma validate_move_order_witness :
  validate_move cross_board 1 1 2 5 = Done (true, "success"%string) /\
  validate_move cross_board 0 0 7 5 = Done (false, "occupied"%string) /\
  validate_move cross_board 5 0 7 5 = Done (false, "invalid_position"%string).
Proof.
  split; [|split].
  - apply (proj1 (validate_move_order cross_board 5 1 1 2 cross_board_square)).
    split; [unfold inside; lia|]. split; [reflexivity|]. right. reflexivity.
  - apply (proj1 (proj2 (proj2
             (validate_move_order cross_board 5 0 0 7 cross_board_square)))).
    + unfold inside. lia.
    + vm_compute. discriminate.
  - apply (proj1 (proj2
             (validate_move_order cross_board 5 5 0 7 cross_board_square))).
    unfold inside. lia.
Defined.

(** ** C8 *)

(** C8. On a square board and a position inside it, [place_piece] returns a
    board that holds the colour at that position and agrees with the
    argument at every other subscript; the result is again square.  The
    argument is a value that the function only reads (a [const] reference
    copied into [new_board]), so the caller's board is the same before and
    after the call. *)
Theorem place_piece_frame (b : board) N x y c :
  square b N -> inside N x y ->
  exists b',
    place_piece b x y c N = Done b' /\
    square b' N /\
    get b' x y = Done c /\
    forall x' y', (x', y') <> (x, y) -> get b' x' y' = get b x' y'.
Proof.
  intros Hsq Hin. unfold place_piece.
  destruct (set_inside b N x y c Hsq Hin) as (b' & Hset & Hrest).
  exists b'. rewrite Hset. cbn [bind]. split; [reflexivity|exact Hrest].
Qed.

Lemma place_piece_frame_witness :
  exists b',
    place_piece cross_board 2 3 2 5 = Done b' /\
    square b' 5 /\
    get b' 2 3 = Done 2 /\
    forall x' y', (x', y') <> (2, 3) -> get b' x' y' = get cross_board x' y'.
Proof.
  apply (place_piece_frame cross_board 5 2 3 2 cross_board_square).
  unfold inside. lia.
Defined.

(** ** C6 *)

Lemma check_game_end_total (b : board) N :
  square b N -> exists r, check_game_end b N = Done r.
Proof.
  intros Hsq.
  destruct (check_game_end_cases b N Hsq)
    as [(a & i & j & c & _ & H)|[(_ & _ & H)|(_ & _ & H)]]; eauto.
Qed.

(** The loop body of [find_winning_move] at a cell of the board. *)
Lemma find_body_cases (b : board) N c i j :
  square b N -> inside N i j ->
  let body :=
    do v <- get b i j;
    if negb (v =? 0) then Done None
    else
      do temp_board <- set b i j c;
      do result <- check_game_end temp_board N;
      if is_end result && (winner result =? c)
      then Done (Some (i, j))
      else Done None in
  (winning_cell b N c i j /\ body = Done (Some (i, j)))
  \/ (~ winning_cell b N c i j /\ body = Done None).
Proof.
  intros Hsq Hin body. subst body.
  destruct (get_inside b N i j Hsq Hin) as [v Hv]. rewrite Hv. cbn [bind].
  destruct (Z.eqb_spec v 0) as [->|Hnz]; cbn [negb].
  - destruct (set_inside b N i j c Hsq Hin) as (b' & Hset & Hsq' & _).
    rewrite Hset. cbn [bind].
    destruct (check_game_end_total b' N Hsq') as [r Hr].
    rewrite Hr. cbn [bind].
    destruct (is_end r) eqn:Hend; cbn [andb].
    + destruct (Z.eqb_spec (winner r) c) as [Hw|Hw].
      * left. split; [|reflexivity].
        split; [exact Hin|]. split; [exact Hv|]. exists b', r. auto.
      * right. split; [|reflexivity].
        intros (_ & _ & b'' & r' & Hset' & Hr' & _ & Hw').
        rewrite Hset in Hset'. injection Hset' as <-.
        rewrite Hr in Hr'. injection Hr' as <-. contradiction.
    + right. split; [|reflexivity].
      intros (_ & _ & b'' & r' & Hset' & Hr' & Hend' & _).
      rewrite Hset in Hset'. injection Hset' as <-.
      rewrite Hr in Hr'. injection Hr' as <-. congruence.
  - right. split; [|reflexivity]. intros (_ & H0 & _). congruence.
Qed.

Lemma winning_cell_inside (b : board) N c i j :
  winning_cell b N c i j -> 0 <= i < N /\ 0 <= j < N.
Proof. intros [H _]. exact H. Qed.

(** C6. On a square board [find_winning_move] returns the first cell, in
    row-major order, that is empty and on which placing the colour makes
    [check_game_end] report the game ended with that colour as winner; when
    no cell qualifies it returns (-1, -1).  On the board of side 15 that is
    empty except for stones of colour 1 at (7,4) .. (7,7) the answer for
    colour 1 is (7,3), not (7,8). *)
Theorem find_winning_move_first :
  (forall (b : board) N c,
      square b N ->
      (forall i j,
          winning_cell b N c i j ->
          (forall i' j', row_major_before i' j' i j ->
                         ~ winning_cell b N c i' j') ->
          find_winning_move b c N = Done (i, j))
      /\
      ((forall i j, ~ winning_cell b N c i j) ->
       find_winning_move b c N = Done (-1, -1)))
  /\
  (find_winning_move open_four 1 15 = Done (7, 3) /\
   winning_cell open_four 15 1 7 8).
Proof.
  split.
  - intros b N c Hsq.
    pose (body := fun i j : Z =>
      do v <- get b i j;
      if negb (v =? 0) then Done None
      else
        do temp_board <- set b i j c;
        do result <- check_game_end temp_board N;
        if is_end result && (winner result =? c)
        then Done (Some (i, j))
        else Done None).
    change (find_winning_move b c N)
      with (do r <- for_range 0 N (fun u => for_range 0 N (body u));
            Done (match r with Some p => p | None => (-1, -1) end)).
    assert (Hbody : forall i j, 0 <= i < N -> 0 <= j < N ->
              (winning_cell b N c i j /\ body i j = Done (Some (i, j)))
              \/ (~ winning_cell b N c i j /\ body i j = Done None)).
    { intros i j Hi Hj. apply find_body_cases; [exact Hsq|]. split; assumption. }
    destruct (nested_range_cases body 0 N 0 N)
      as [[Hnone Hall]|(u & v & r & Hu & Hv & Hr & Hbefore & Hres)].
    { intros u v Hu Hv. destruct (Hbody u v Hu Hv) as [[_ H]|[_ H]]; eauto. }
    + rewrite Hnone. cbn [bind]. split; [|reflexivity].
      intros i j Hcell _. exfalso.
      destruct (winning_cell_inside _ _ _ _ _ Hcell) as [Hi Hj].
      specialize (Hall i j Hi Hj).
      destruct (Hbody i j Hi Hj) as [[_ H]|[H _]]; [congruence|auto].
    + rewrite Hres. cbn [bind].
      destruct (Hbody u v Hu Hv) as [[Hcell H]|[_ H]]; [|congruence].
      assert (r = (u, v)) as -> by congruence.
      split.
      * intros i j Hcell' Hfirst.
        destruct (winning_cell_inside _ _ _ _ _ Hcell') as [Hi Hj].
        assert (Hnot1 : ~ row_major_before u v i j).
        { intros Hlt. exact (Hfirst u v Hlt Hcell). }
        assert (Hnot2 : ~ row_major_before i j u v).
        { intros Hlt. specialize (Hbefore i j Hi Hj Hlt).
          destruct (Hbody i j Hi Hj) as [[_ H']|[H' _]]; [congruence|auto]. }
        unfold row_major_before in Hnot1, Hnot2.
        assert (i = u /\ j = v) as [-> ->] by lia. reflexivity.
      * intros Hno. destruct (Hno u v Hcell).
  - split; [vm_compute; reflexivity|].
    split; [unfold inside; lia|]. split; [reflexivity|].
    eexists. eexists. split; [vm_compute; reflexivity|].
    split; [vm_compute; reflexivity|]. split; reflexivity.
Qed.

Lemma find_winning_move_first_witness :
  find_winning_move four_and_gap 1 5 = Done (0, 0) /\
  find_winning_move cross_board 2 5 = Done (-1, -1).
Proof.
  split.
  - apply (proj1 (proj1 find_winning_move_first four_and_gap 5 1
                    ltac:(square_example))).
    + split; [unfold inside; lia|]. split; [reflexivity|].
      eexists. eexists. split; [vm_compute; reflexivity|].
      split; [vm_compute; reflexivity|]. split; reflexivity.
    + intros i' j' Hbefore Hcell. apply winning_cell_inside in Hcell.
      unfold row_major_before in Hbefore. lia.
  - apply (proj2 (proj1 find_winning_move_first cross_board 5 2
                    cross_board_square)).
    intros i j (Hin & Hempty & b' & r & Hset & Hres & Hend & Hwin).
    destruct Hin as [Hi Hj].
    assert (i = 0 \/ i = 1 \/ i = 2 \/ i = 3 \/ i = 4)
      as [-> | [-> | [-> | [-> | ->]]]] by lia;
    assert (j = 0 \/ j = 1 \/ j = 2 \/ j = 3 \/ j = 4)
      as [-> | [-> | [-> | [-> | ->]]]] by lia;
    vm_compute in Hempty; try discriminate Hempty;
    vm_compute in Hset; injection Hset as <-;
    vm_compute in Hres; injection Hres as <-;
    vm_compute in Hwin; discriminate Hwin.
Defined.

(** ** check_line *)

Ltac split_dir dx dy Hdir :=
  let H1 := fresh in
  let H2 := fresh in
  let H3 := fresh in
  destruct Hdir as (H1 & H2 & H3);
  assert (dx = -1 \/ dx = 0 \/ dx = 1) as [-> | [-> | ->]] by lia;
  assert (dy = -1 \/ dy = 0 \/ dy = 1) as [-> | [-> | ->]] by lia;
  try (exfalso; lia); clear H1 H2 H3.

(** With more fuel than there is room on the board the loop of [check_line]
    leaves through one of its two exits, having counted the cells of colour
    [color] from [(x, y)] on. *)
Lemma check_line_loop_spec (b : board) N color dx dy :
  square b N -> unit_dir dx dy ->
  forall fuel x y count,
    -1 <= x <= N -> -1 <= y <= N ->
    room N x y dx dy < Z.of_nat fuel ->
    exists n,
      check_line_loop fuel b x y dx dy color N count = Done (count + n) /\
      0 <= n /\
      (forall t, 0 <= t < n ->
                 inside N (x + t * dx) (y + t * dy) /\
                 get b (x + t * dx) (y + t * dy) = Done color) /\
      ~ (inside N (x + n * dx) (y + n * dy) /\
         get b (x + n * dx) (y + n * dy) = Done color).
Proof.
  intros Hsq Hdir fuel.
  induction fuel as [|fuel IH]; intros x y count Hx Hy Hroom.
  - exfalso. unfold room in Hroom.
    repeat match type of Hroom with
           | context [?a =? ?c] => destruct (Z.eqb_spec a c)
           end; lia.
  - cbn [check_line_loop].
    destruct (in_bounds x y N) eqn:Hin.
    + apply in_bounds_true in Hin.
      destruct (get_inside b N x y Hsq Hin) as [v Hv]. rewrite Hv.
      cbn [bind]. destruct (Z.eqb_spec v color) as [->|Hne].
      * destruct (IH (x + dx) (y + dy) (count + 1)) as (n & Hres & Hn & Hrun & Hend).
        { destruct Hin. destruct Hdir as (? & ? & ?). lia. }
        { destruct Hin. destruct Hdir as (? & ? & ?). lia. }
        { destruct Hin as [Hix Hiy]. unfold room in *.
          split_dir dx dy Hdir; cbn in *; lia. }
        exists (n + 1). split; [rewrite Hres; f_equal; lia|].
        split; [lia|]. split.
        -- intros t Ht. destruct (Z.eq_dec t 0) as [->|Hnz].
           ++ rewrite !Z.mul_0_l, !Z.add_0_r. split; assumption.
           ++ specialize (Hrun (t - 1) ltac:(lia)).
              replace (x + dx + (t - 1) * dx) with (x + t * dx) in Hrun by ring.
              replace (y + dy + (t - 1) * dy) with (y + t * dy) in Hrun by ring.
              exact Hrun.
        -- replace (x + (n + 1) * dx) with (x + dx + n * dx) by ring.
           replace (y + (n + 1) * dy) with (y + dy + n * dy) by ring.
           exact Hend.
      * exists 0. split; [f_equal; lia|]. split; [lia|]. split.
        -- intros t Ht. lia.
        -- rewrite !Z.mul_0_l, !Z.add_0_r. intros [_ H]. congruence.
    + apply in_bounds_false in Hin.
      exists 0. split; [f_equal; lia|]. split; [lia|]. split.
      * intros t Ht. lia.
      * rewrite !Z.mul_0_l, !Z.add_0_r. intros [H _]. contradiction.
Qed.

(** [check_line] started one step away from a cell of the board returns the
    run length beyond that cell. *)
Lemma check_line_run (b : board) N color dx dy fuel x y :
  square b N -> unit_dir dx dy -> inside N x y -> N < Z.of_nat fuel ->
  exists n,
    check_line fuel b (x + dx) (y + dy) dx dy color N = Done n /\
    run_length b N color x y dx dy n.
Proof.
  intros Hsq Hdir [Hx Hy] Hfuel. unfold check_line.
  destruct (check_line_loop_spec b N color dx dy Hsq Hdir fuel
              (x + dx) (y + dy) 0) as (n & Hres & Hn & Hrun & Hend).
  { destruct Hdir as (? & ? & ?). lia. }
  { destruct Hdir as (? & ? & ?). lia. }
  { unfold room. split_dir dx dy Hdir; cbn; lia. }
  exists n. split; [rewrite Hres; f_equal; lia|].
  split; [exact Hn|]. split.
  - intros t Ht. specialize (Hrun (t - 1) ltac:(lia)).
    replace (x + dx + (t - 1) * dx) with (x + t * dx) in Hrun by ring.
    replace (y + dy + (t - 1) * dy) with (y + t * dy) in Hrun by ring.
    exact Hrun.
  - replace (x + (n + 1) * dx) with (x + dx + n * dx) by ring.
    replace (y + (n + 1) * dy) with (y + dy + n * dy) by ring.
    exact Hend.
Qed.

Lemma run_length_unique (b : board) N c x y dx dy n m :
  run_length b N c x y dx dy n -> run_length b N c x y dx dy m -> n = m.
Proof.
  intros (Hn & Hrun & Hend) (Hm & Hrun' & Hend').
  destruct (Z.lt_trichotomy n m) as [Hlt|[Heq|Hgt]]; [|exact Heq|].
  - exfalso. apply Hend. apply Hrun'. lia.
  - exfalso. apply Hend'. apply Hrun. lia.
Qed.

Lemma unit_dir_opp dx dy : unit_dir dx dy -> unit_dir (- dx) (- dy).
Proof. unfold unit_dir. lia. Qed.

(** ** get_pattern_score *)

Lemma holds_opponent_spec (b : board) N x y opponent :
  square b N ->
  exists r, holds_opponent b x y opponent N = Done r /\
            (r = true <-> inside N x y /\ get b x y = Done opponent).
Proof.
  intros Hsq. unfold holds_opponent.
  destruct (in_bounds x y N) eqn:Hin.
  - apply in_bounds_true in Hin.
    destruct (get_inside b N x y Hsq Hin) as [v Hv]. rewrite Hv. cbn [bind].
    exists (v =? opponent). split; [reflexivity|].
    destruct (Z.eqb_spec v opponent) as [->|Hne].
    + tauto.
    + split; [discriminate|]. intros [_ H]. congruence.
  - apply in_bounds_false in Hin. exists false. split; [reflexivity|].
    split; [discriminate|]. intros [H _]. contradiction.
Qed.

Lemma add_pattern_weight score w total blocked :
  1 <= total ->
  add_pattern score w total blocked
  = F32.add score (pattern_weight w total blocked).
Proof.
  intros Htotal. unfold add_pattern, pattern_weight.
  rewrite Z.geb_leb.
  destruct (Z.leb_spec 5 total); [reflexivity|].
  destruct (Z.eqb_spec total 4); [reflexivity|].
  destruct (Z.eqb_spec total 3); [reflexivity|].
  destruct (Z.eqb_spec total 2); [reflexivity|].
  destruct (Z.eqb_spec total 1); [reflexivity|lia].
Qed.

(** One axis: the loop body adds the weight of the line along that axis. *)
Lemma pattern_step_spec (b : board) N fuel x y c w score dx dy :
  square b N -> inside N x y -> unit_dir dx dy -> is_player c ->
  N < Z.of_nat fuel ->
  exists s,
    axis_weight b N x y c w dx dy s /\
    pattern_step fuel b x y c w N score (dx, dy) = Done (F32.add score s).
Proof.
  intros Hsq Hin Hdir Hc Hfuel. unfold pattern_step.
  destruct (check_line_run b N c dx dy fuel x y Hsq Hdir Hin Hfuel)
    as (fw & Hfw & Hrunf).
  destruct (check_line_run b N c (- dx) (- dy) fuel x y Hsq
              (unit_dir_opp _ _ Hdir) Hin Hfuel) as (bw & Hbw & Hrunb).
  replace (x + - dx) with (x - dx) in Hbw by lia.
  replace (y + - dy) with (y - dy) in Hbw by lia.
  rewrite Hfw. cbn [bind]. rewrite Hbw. cbn [bind].
  assert (Hopp : (if c =? 1 then 2 else 1) = opposing c).
  { unfold opposing. destruct Hc as [-> | ->]; reflexivity. }
  rewrite Hopp.
  destruct (holds_opponent_spec b N (x + (fw + 1) * dx) (y + (fw + 1) * dy)
              (opposing c) Hsq) as (front & Hfront & Hfront_iff).
  destruct (holds_opponent_spec b N (x - (bw + 1) * dx) (y - (bw + 1) * dy)
              (opposing c) Hsq) as (back & Hback & Hback_iff).
  rewrite Hfront. cbn [bind].
  assert (Htotal : 1 <= fw + bw + 1).
  { destruct Hrunf as [? _]. destruct Hrunb as [? _]. lia. }
  exists (pattern_weight w (fw + bw + 1) (front || back)). split.
  - exists fw, bw, (front || back).
    split; [exact Hrunf|]. split; [exact Hrunb|]. split; [|reflexivity].
    split.
    + intros Hor. apply orb_true_iff in Hor as [->| ->].
      * left. now apply Hfront_iff.
      * right. now apply Hback_iff.
    + intros [Hb|Hb]; apply orb_true_iff.
      * left. now apply Hfront_iff.
      * right. now apply Hback_iff.
  - destruct front; cbn [orb].
    + cbn [bind]. now rewrite add_pattern_weight.
    + rewrite Hback. cbn [bind]. now rewrite add_pattern_weight.
Qed.

Lemma blocks_unique_flag (P Q : Prop) (b1 b2 : bool) :
  (b1 = true <-> P \/ Q) -> (b2 = true <-> P \/ Q) -> b1 = b2.
Proof. destruct b1, b2; intuition congruence. Qed.

(** The relation [axis_weight] determines the weight. *)
Lemma axis_weight_unique (b : board) N x y c w dx dy s s' :
  axis_weight b N x y c w dx dy s -> axis_weight b N x y c w dx dy s' ->
  s = s'.
Proof.
  intros (fw & bw & blk & Hf & Hb & Hblk & ->)
         (fw' & bw' & blk' & Hf' & Hb' & Hblk' & ->).
  assert (fw = fw') as <- by (eapply run_length_unique; eassumption).
  assert (bw = bw') as <- by (eapply run_length_unique; eassumption).
  assert (blk = blk') as <- by (eapply blocks_unique_flag; eassumption).
  reflexivity.
Qed.

Lemma get_pattern_score_spec (b : board) N fuel x y c w :
  square b N -> inside N x y -> is_player c -> N < Z.of_nat fuel ->
  exists s1 s2 s3 s4,
    axis_weight b N x y c w 0 1 s1 /\
    axis_weight b N x y c w 1 0 s2 /\
    axis_weight b N x y c w 1 1 s3 /\
    axis_weight b N x y c w 1 (-1) s4 /\
    get_pattern_score fuel b x y c w N
    = Done (F32.add (F32.add (F32.add (F32.add F32.zero s1) s2) s3) s4).
Proof.
  intros Hsq Hin Hc Hfuel. unfold get_pattern_score, dirs.
  cbn [pattern_loop].
  destruct (pattern_step_spec b N fuel x y c w F32.zero 0 1 Hsq Hin
              ltac:(unfold unit_dir; lia) Hc Hfuel) as (s1 & Ha1 & ->).
  cbn [bind].
  destruct (pattern_step_spec b N fuel x y c w (F32.add F32.zero s1) 1 0
              Hsq Hin ltac:(unfold unit_dir; lia) Hc Hfuel)
    as (s2 & Ha2 & ->).
  cbn [bind].
  destruct (pattern_step_spec b N fuel x y c w
              (F32.add (F32.add F32.zero s1) s2) 1 1
              Hsq Hin ltac:(unfold unit_dir; lia) Hc Hfuel)
    as (s3 & Ha3 & ->).
  cbn [bind].
  destruct (pattern_step_spec b N fuel x y c w
              (F32.add (F32.add (F32.add F32.zero s1) s2) s3) 1 (-1)
              Hsq Hin ltac:(unfold unit_dir; lia) Hc Hfuel)
    as (s4 & Ha4 & ->).
  cbn [bind]. exists s1, s2, s3, s4. repeat split; assumption.
Qed.

(** A stone without a neighbour of its colour along an axis: weight ONE. *)
Lemma axis_weight_alone (b b' : board) N x y c w dx dy s :
  all_empty b N -> is_player c -> unit_dir dx dy ->
  (forall x' y', (x', y') <> (x, y) -> get b' x' y' = get b x' y') ->
  axis_weight b' N x y c w dx dy s -> s = ONE w.
Proof.
  intros Hempty Hc Hdir Hframe (fw & bw & blk & Hf & Hb & _ & ->).
  assert (Hzero : forall ex ey n,
             unit_dir ex ey -> run_length b' N c x y ex ey n -> n = 0).
  { intros ex ey n Hd (Hn & Hrun & _).
    destruct (Z.eq_dec n 0) as [|Hnz]; [assumption|exfalso].
    destruct (Hrun 1 ltac:(lia)) as [Hin Hget].
    rewrite Hframe in Hget.
    - rewrite (Hempty _ _ Hin) in Hget. destruct Hc; congruence.
    - intros Heq. injection Heq as Hx Hy. destruct Hd as (? & ? & ?). lia. }
  rewrite (Hzero _ _ _ Hdir Hf).
  rewrite (Hzero _ _ _ (unit_dir_opp _ _ Hdir) Hb).
  reflexivity.
Qed.

(** ** C5 *)

(** C5. On a square board, for a position inside it and a colour in {1, 2},
    [evaluate_move] places the colour on a copy of the board and returns the
    float sum, taken in the order (0,1), (1,0), (1,1), (1,-1) from 0, of one
    weight per axis.  The weight of an axis is selected by
    total = forward + backward + 1, where forward and backward count the
    consecutive cells of the colour strictly beyond the position in the two
    directions of the axis, and by blocked, which is true exactly when the
    cell one step beyond the forward end or one step beyond the backward end
    is on the board and holds the opposing colour: FIVE from 5 on, then
    FOUR / THREE / TWO or their BLOCKED variants for 4, 3, 2, and ONE for 1.
    On an empty board the result is ONE added four times. *)
Theorem evaluate_move_patterns (b : board) N fuel x y c w :
  square b N -> inside N x y -> is_player c -> N < Z.of_nat fuel ->
  (exists b' s1 s2 s3 s4,
      set b x y c = Done b' /\
      axis_weight b' N x y c w 0 1 s1 /\
      axis_weight b' N x y c w 1 0 s2 /\
      axis_weight b' N x y c w 1 1 s3 /\
      axis_weight b' N x y c w 1 (-1) s4 /\
      evaluate_move fuel b x y c w N
      = Done (F32.add (F32.add (F32.add (F32.add F32.zero s1) s2) s3) s4))
  /\
  (all_empty b N ->
   evaluate_move fuel b x y c w N
   = Done (F32.add (F32.add (F32.add (F32.add F32.zero (ONE w)) (ONE w))
                            (ONE w)) (ONE w))).
Proof.
  intros Hsq Hin Hc Hfuel. unfold evaluate_move.
  destruct (set_inside b N x y c Hsq Hin) as (b' & Hset & Hsq' & _ & Hframe).
  rewrite Hset. cbn [bind].
  destruct (get_pattern_score_spec b' N fuel x y c w Hsq' Hin Hc Hfuel)
    as (s1 & s2 & s3 & s4 & H1 & H2 & H3 & H4 & Hres).
  split.
  - exists b', s1, s2, s3, s4. repeat split; assumption.
  - intros Hempty. rewrite Hres.
    rewrite (axis_weight_alone b b' N x y c w 0 1 s1 Hempty Hc
               ltac:(unfold unit_dir; lia) Hframe H1).
    rewrite (axis_weight_alone b b' N x y c w 1 0 s2 Hempty Hc
               ltac:(unfold unit_dir; lia) Hframe H2).
    rewrite (axis_weight_alone b b' N x y c w 1 1 s3 Hempty Hc
               ltac:(unfold unit_dir; lia) Hframe H3).
    rewrite (axis_weight_alone b b' N x y c w 1 (-1) s4 Hempty Hc
               ltac:(unfold unit_dir; lia) Hframe H4).
    reflexivity.
Qed.

(** The scorer on small boards of side 7, under [sample_weights]
    (ONE = 1, BLOCKED_TWO = 5, TWO = 10). *)

Example lone_stone_scores_four :
  evaluate_move 8 (empty_board 7) 3 3 1 sample_weights 7
  = Done (F32.of_int 4).
Proof. vm_compute. reflexivity. Qed.

Example open_two_scores_thirteen :
  evaluate_move 8 (with_stones 1 [(3, 3)] (empty_board 7)) 3 4 1
                sample_weights 7
  = Done (F32.of_int 13).
Proof. vm_compute. reflexivity. Qed.

Example blocked_two_scores_eight :
  evaluate_move 8 (with_stones 2 [(3, 2)]
                     (with_stones 1 [(3, 3)] (empty_board 7))) 3 4 1
                sample_weights 7
  = Done (F32.of_int 8).
Proof. vm_compute. reflexivity. Qed.

Example two_at_the_edge_is_open :
  evaluate_move 8 (with_stones 1 [(0, 0)] (empty_board 7)) 0 1 1
                sample_weights 7
  = Done (F32.of_int 13).
Proof. vm_compute. reflexivity. Qed.

Lemma evaluate_move_patterns_witness :
  (exists b' s1 s2 s3 s4,
      set (empty_board 5) 2 2 1 = Done b' /\
      axis_weight b' 5 2 2 1 sample_weights 0 1 s1 /\
      axis_weight b' 5 2 2 1 sample_weights 1 0 s2 /\
      axis_weight b' 5 2 2 1 sample_weights 1 1 s3 /\
      axis_weight b' 5 2 2 1 sample_weights 1 (-1) s4 /\
      evaluate_move 6 (empty_board 5) 2 2 1 sample_weights 5
      = Done (F32.add (F32.add (F32.add (F32.add F32.zero s1) s2) s3) s4))
  /\
  (all_empty (empty_board 5) 5 ->
   evaluate_move 6 (empty_board 5) 2 2 1 sample_weights 5
   = Done (F32.add (F32.add (F32.add
             (F32.add F32.zero (ONE sample_weights)) (ONE sample_weights))
             (ONE sample_weights)) (ONE sample_weights))).
Proof.
  apply (evaluate_move_patterns (empty_board 5) 5 6 2 2 1 sample_weights).
  - split; [reflexivity | repeat constructor].
  - unfold inside. lia.
  - left. reflexivity.
  - lia.
Defined.

(** ** binary32 facts *)

Lemma digits2_pos_lower p : 2 ^ (Zpos (digits2_pos p) - 1) <= Zpos p.
Proof.
  induction p as [p IH|p IH|]; cbn [digits2_pos].
  - rewrite Pos2Z.inj_succ.
    replace (Z.succ (Zpos (digits2_pos p)) - 1)
      with (Z.succ (Zpos (digits2_pos p) - 1)) by lia.
    rewrite Z.pow_succ_r by lia. lia.
  - rewrite Pos2Z.inj_succ.
    replace (Z.succ (Zpos (digits2_pos p)) - 1)
      with (Z.succ (Zpos (digits2_pos p) - 1)) by lia.
    rewrite Z.pow_succ_r by lia. lia.
  - cbn. lia.
Qed.

Lemma shr_1_half r : 0 <= shr_m r -> shr_m (shr_1 r) = shr_m r / 2.
Proof.
  destruct r as [m rb sb]. cbn [shr_m]. intros Hm.
  rewrite <- Z.div2_div.
  destruct m as [|p|p]; [reflexivity| |lia].
  destruct p; reflexivity.
Qed.

Lemma shr_1_nonneg r : 0 <= shr_m r -> 0 <= shr_m (shr_1 r).
Proof.
  intros H. rewrite shr_1_half by exact H. apply Z.div_pos; lia.
Qed.

Lemma iter_shr_1 n : forall r,
  0 <= shr_m r -> shr_m (SpecFloat.iter_pos shr_1 n r) = shr_m r / 2 ^ Zpos n.
Proof.
  induction n as [n IH|n IH|]; intros r Hr; cbn [SpecFloat.iter_pos].
  - assert (H1 : 0 <= shr_m (shr_1 r)) by now apply shr_1_nonneg.
    assert (H2 : 0 <= shr_m (SpecFloat.iter_pos shr_1 n (shr_1 r))).
    { rewrite IH by exact H1. apply Z.div_pos; lia. }
    rewrite IH by exact H2. rewrite IH by exact H1.
    rewrite shr_1_half by exact Hr.
    rewrite !Z.div_div by lia.
    f_equal. change (Zpos n~1) with (Z.succ (2 * Zpos n)).
    rewrite Z.pow_succ_r by lia. rewrite Z.pow_twice_r. reflexivity.
  - assert (H2 : 0 <= shr_m (SpecFloat.iter_pos shr_1 n r)).
    { rewrite IH by exact Hr. apply Z.div_pos; lia. }
    rewrite IH by exact H2. rewrite IH by exact Hr.
    rewrite !Z.div_div by lia.
    f_equal. change (Zpos n~0) with (2 * Zpos n).
    rewrite Z.pow_twice_r. reflexivity.
  - rewrite shr_1_half by exact Hr. reflexivity.
Qed.

Lemma shr_fexp_pos m e l :
  0 < m -> -149 <= e ->
  0 < shr_m (fst (shr_fexp F32.prec F32.emax m e l)) /\
  e <= snd (shr_fexp F32.prec F32.emax m e l).
Proof.
  intros Hm He. destruct m as [|p|p]; try lia.
  unfold shr_fexp, shr, fexp, emin, F32.prec, F32.emax. cbn [Zdigits2].
  pose proof (digits2_pos_lower p) as Hlow.
  set (d := Zpos (digits2_pos p)) in *.
  assert (Hd : 1 <= d) by (subst d; lia).
  destruct (Z.max (d + e - 24) (3 - 128 - 24) - e) as [|n|n] eqn:Hn;
    cbn [fst snd].
  - destruct l as [|[ | | ]]; cbn; lia.
  - assert (Hnd : Zpos n <= d - 1) by lia.
    split; [|lia].
    rewrite iter_shr_1 by (destruct l as [|[ | | ]]; cbn; lia).
    assert (Hsm : shr_m (shr_record_of_loc (Zpos p) l) = Zpos p)
      by (destruct l as [|[ | | ]]; reflexivity).
    rewrite Hsm. apply Z.div_str_pos. split; [lia|].
    apply Z.le_trans with (2 ^ (d - 1)); [|exact Hlow].
    apply Z.pow_le_mono_r; lia.
  - destruct l as [|[ | | ]]; cbn; lia.
Qed.

Lemma round_nearest_even_ge m l : m <= round_nearest_even m l.
Proof.
  destruct l as [|[ | | ]]; cbn [round_nearest_even]; try lia.
  destruct (Z.even m); lia.
Qed.

Lemma binary_round_aux_signed sx mx ex lx :
  0 < mx -> -149 <= ex ->
  (exists m e, binary_round_aux F32.prec F32.emax sx mx ex lx = S754_finite sx m e)
  \/ binary_round_aux F32.prec F32.emax sx mx ex lx = S754_infinity sx.
Proof.
  intros Hm He. unfold binary_round_aux.
  pose proof (shr_fexp_pos mx ex lx Hm He) as [H1 H1e].
  destruct (shr_fexp F32.prec F32.emax mx ex lx) as [mrs' e']. cbn [fst snd] in H1, H1e.
  pose proof (round_nearest_even_ge (shr_m mrs') (loc_of_shr_record mrs'))
    as Hr.
  set (m1 := round_nearest_even (shr_m mrs') (loc_of_shr_record mrs')) in *.
  pose proof (shr_fexp_pos m1 e' loc_Exact ltac:(lia) ltac:(lia)) as [H2 _].
  destruct (shr_fexp F32.prec F32.emax m1 e' loc_Exact) as [mrs'' e'']. cbn [fst] in H2.
  destruct (shr_m mrs'') as [|m|m]; try lia.
  destruct (e'' <=? F32.emax - F32.prec); eauto.
Qed.

Lemma binary_round_signed sx p :
  (exists m e, binary_round F32.prec F32.emax sx p 0 = S754_finite sx m e)
  \/ binary_round F32.prec F32.emax sx p 0 = S754_infinity sx.
Proof.
  unfold binary_round.
  destruct (shl_align p 0 (fexp F32.prec F32.emax (Zpos (digits2_pos p) + 0)))
    as [mz ez] eqn:Hal.
  apply binary_round_aux_signed; [lia|].
  unfold shl_align, fexp, emin, F32.prec, F32.emax in Hal.
  destruct (Z.max (Zpos (digits2_pos p) + 0 - 24) (3 - 128 - 24) - 0) eqn:Hs;
    injection Hal as <- <-; lia.
Qed.

(** A positive [int] converts to a positive float, finite or infinite. *)
Lemma of_int_positive n :
  1 <= n ->
  (exists m e, F32.of_int n = S754_finite false m e)
  \/ F32.of_int n = S754_infinity false.
Proof.
  intros Hn. destruct n as [|p|p]; try lia.
  unfold F32.of_int, binary_normalize. apply binary_round_signed.
Qed.

Lemma div_zero_of_int n : 1 <= n -> F32.div F32.zero (F32.of_int n) = F32.zero.
Proof.
  intros Hn. destruct (of_int_positive n Hn) as [(m & e & ->)| ->];
    reflexivity.
Qed.

Lemma is_zero_inv x : F32.is_zero x = true -> exists s, x = S754_zero s.
Proof.
  destruct x as [s|s| |s m e]; try destruct s; try discriminate; eauto.
Qed.

Lemma add_zero_signed s : F32.add F32.zero (S754_zero s) = F32.zero.
Proof. destruct s; reflexivity. Qed.

Lemma gt_zero_minus_1e9 : F32.gt F32.zero minus_1e9 = true.
Proof. vm_compute. reflexivity. Qed.

Lemma gt_zero_zero : F32.gt F32.zero F32.zero = false.
Proof. reflexivity. Qed.

(** ** The optimiser under all-zero weights *)

Lemma pattern_step_total (b : board) N fuel x y c w score dx dy :
  square b N -> inside N x y -> unit_dir dx dy -> N < Z.of_nat fuel ->
  exists total blocked,
    pattern_step fuel b x y c w N score (dx, dy)
    = Done (add_pattern score w total blocked).
Proof.
  intros Hsq Hin Hdir Hfuel. unfold pattern_step.
  destruct (check_line_run b N c dx dy fuel x y Hsq Hdir Hin Hfuel)
    as (fw & Hfw & _).
  destruct (check_line_run b N c (- dx) (- dy) fuel x y Hsq
              (unit_dir_opp _ _ Hdir) Hin Hfuel) as (bw & Hbw & _).
  replace (x + - dx) with (x - dx) in Hbw by lia.
  replace (y + - dy) with (y - dy) in Hbw by lia.
  rewrite Hfw. cbn [bind]. rewrite Hbw. cbn [bind].
  set (opponent := if c =? 1 then 2 else 1).
  destruct (holds_opponent_spec b N (x + (fw + 1) * dx) (y + (fw + 1) * dy)
              opponent Hsq) as (front & -> & _).
  destruct (holds_opponent_spec b N (x - (bw + 1) * dx) (y - (bw + 1) * dy)
              opponent Hsq) as (back & Hback & _).
  cbn [bind]. destruct front.
  - cbn [bind]. eauto.
  - rewrite Hback. cbn [bind]. eauto.
Qed.

Lemma add_pattern_zero w total blocked :
  weights_all_zero w -> add_pattern F32.zero w total blocked = F32.zero.
Proof.
  intros (H5 & H4 & Hb4 & H3 & Hb3 & H2 & Hb2 & H1).
  apply is_zero_inv in H5 as [? H5], H4 as [? H4], Hb4 as [? Hb4],
    H3 as [? H3], Hb3 as [? Hb3], H2 as [? H2], Hb2 as [? Hb2],
    H1 as [? H1].
  unfold add_pattern.
  rewrite H5, H4, Hb4, H3, Hb3, H2, Hb2, H1.
  repeat match goal with
         | |- context [if ?c then _ else _] => destruct c
         end; try apply add_zero_signed; reflexivity.
Qed.

Lemma get_pattern_score_zero (b : board) N fuel x y c w :
  square b N -> inside N x y -> N < Z.of_nat fuel -> weights_all_zero w ->
  get_pattern_score fuel b x y c w N = Done F32.zero.
Proof.
  intros Hsq Hin Hfuel Hw. unfold get_pattern_score, dirs.
  cbn [pattern_loop].
  repeat match goal with
  | |- context [pattern_step fuel b x y c w N F32.zero (?dx, ?dy)] =>
      let t := fresh "t" in
      let k := fresh "k" in
      let H := fresh "H" in
      destruct (pattern_step_total b N fuel x y c w F32.zero dx dy Hsq Hin
                  ltac:(unfold unit_dir; lia) Hfuel) as (t & k & H);
      rewrite H; clear H; rewrite (add_pattern_zero w t k Hw); cbn [bind]
  end.
  reflexivity.
Qed.

Lemma evaluate_move_zero (b : board) N fuel x y c w :
  square b N -> inside N x y -> N < Z.of_nat fuel -> weights_all_zero w ->
  evaluate_move fuel b x y c w N = Done F32.zero.
Proof.
  intros Hsq Hin Hfuel Hw. unfold evaluate_move.
  destruct (set_inside b N x y c Hsq Hin) as (b' & -> & Hsq' & _).
  cbn [bind]. now apply get_pattern_score_zero.
Qed.

Lemma accumulate_score_zero (b : board) N fuel n x y c w :
  square b N -> inside N x y -> N < Z.of_nat fuel -> weights_all_zero w ->
  accumulate_score fuel n b (x, y) c w N F32.zero = Done F32.zero.
Proof.
  intros Hsq Hin Hfuel Hw. induction n as [|n IH]; [reflexivity|].
  cbn [accumulate_score fst snd].
  destruct (set_inside b N x y c Hsq Hin) as (b' & -> & Hsq' & _).
  cbn [bind]. rewrite (evaluate_move_zero b' N fuel x y c w Hsq' Hin Hfuel Hw).
  cbn [bind]. exact IH.
Qed.

(** The candidate loop builds the list of the specification. *)
Lemma collect_candidates_spec (b : board) N init :
  square b N ->
  forall offsets acc,
    collect_candidates b init N offsets acc
    = Done (acc ++ List.filter (free_cell b N)
                     (map (fun d => (fst init + fst d, snd init + snd d))
                          offsets)).
Proof.
  intros Hsq offsets. induction offsets as [|[dx dy] rest IH]; intros acc.
  - cbn. now rewrite app_nil_r.
  - cbn [collect_candidates map List.filter fst snd]. unfold free_cell.
    cbn [fst snd].
    destruct (in_bounds (fst init + dx) (snd init + dy) N) eqn:Hin;
      cbn [andb]; [|apply IH].
    apply in_bounds_true in Hin.
    destruct (get_inside b N _ _ Hsq Hin) as [v ->]. cbn [bind].
    destruct (v =? 0); [|apply IH].
    rewrite IH. rewrite <- app_assoc. reflexivity.
Qed.

Lemma candidates_inside (b : board) N seed :
  inside N (fst seed) (snd seed) ->
  Forall (fun p => inside N (fst p) (snd p)) (candidates_spec b N seed).
Proof.
  intros Hseed. unfold candidates_spec. constructor; [exact Hseed|].
  apply List.Forall_forall. intros p Hp.
  apply List.filter_In in Hp as [_ Hfree].
  unfold free_cell in Hfree. apply andb_true_iff in Hfree as [Hin _].
  now apply in_bounds_true.
Qed.

Lemma best_candidate_keeps (b : board) N fuel c iterations w best :
  square b N -> N < Z.of_nat fuel -> weights_all_zero w -> 1 <= iterations ->
  forall candidates,
    Forall (fun p => inside N (fst p) (snd p)) candidates ->
    best_candidate fuel b c iterations w N candidates F32.zero best
    = Done best.
Proof.
  intros Hsq Hfuel Hw Hit candidates Hall.
  induction Hall as [|[x y] rest Hin _ IH]; [reflexivity|].
  cbn [best_candidate]. cbn [fst snd] in Hin.
  rewrite (accumulate_score_zero b N fuel _ x y c w Hsq Hin Hfuel Hw).
  cbn [bind]. rewrite (div_zero_of_int _ Hit), gt_zero_zero. exact IH.
Qed.

Lemma mcts_optimize_with_zero (b : board) N fuel seed c depth iterations w :
  square b N -> inside N (fst seed) (snd seed) -> N < Z.of_nat fuel ->
  weights_all_zero w -> 1 <= iterations ->
  mcts_optimize_with w fuel b seed c depth iterations N = Done seed.
Proof.
  intros Hsq Hseed Hfuel Hw Hit. unfold mcts_optimize_with.
  rewrite (collect_candidates_spec b N seed Hsq). cbn [bind app].
  pose proof (candidates_inside b N seed Hseed) as Hall.
  unfold candidates_spec in Hall. inversion Hall as [|? ? _ Hrest]; subst.
  cbn [best_candidate]. destruct seed as [x y]. cbn [fst snd] in *.
  rewrite (accumulate_score_zero b N fuel _ x y c w Hsq Hseed Hfuel Hw).
  cbn [bind]. rewrite (div_zero_of_int _ Hit), gt_zero_minus_1e9.
  now apply best_candidate_keeps.
Qed.

Lemma Weights_default_zero : weights_all_zero Weights_default.
Proof. repeat split. Qed.

(** ** The specification's optimiser under all-zero weights *)

Lemma sum_repeat_zero n :
  fold_left F32.add (repeat F32.zero n) F32.zero = F32.zero.
Proof. induction n as [|n IH]; [reflexivity|]. cbn. exact IH. Qed.

Lemma mean_score_zero (b : board) N fuel c w reps p :
  square b N -> inside N (fst p) (snd p) -> N < Z.of_nat fuel ->
  weights_all_zero w -> 1 <= reps ->
  mean_score fuel b c w N reps p = Done F32.zero.
Proof.
  intros Hsq Hin Hfuel Hw Hreps. unfold mean_score.
  rewrite (evaluate_move_zero b N fuel _ _ c w Hsq Hin Hfuel Hw).
  cbn [bind]. now rewrite sum_repeat_zero, div_zero_of_int.
Qed.

Lemma mean_scores_zero (b : board) N fuel c w reps ps :
  square b N -> N < Z.of_nat fuel -> weights_all_zero w -> 1 <= reps ->
  Forall (fun p => inside N (fst p) (snd p)) ps ->
  mean_scores fuel b c w N reps ps = Done (map (fun p => (p, F32.zero)) ps).
Proof.
  intros Hsq Hfuel Hw Hreps Hall.
  induction Hall as [|p rest Hin _ IH]; [reflexivity|].
  cbn [mean_scores map].
  rewrite (mean_score_zero b N fuel c w reps p Hsq Hin Hfuel Hw Hreps).
  cbn [bind]. rewrite IH. reflexivity.
Qed.

Lemma running_best_all_zero p ps :
  running_best (p, F32.zero) (map (fun q => (q, F32.zero)) ps)
  = (p, F32.zero).
Proof.
  induction ps as [|q ps IH]; [reflexivity|].
  cbn [map running_best snd]. rewrite gt_zero_zero. exact IH.
Qed.

Lemma optimize_spec_zero (b : board) N fuel seed c w reps :
  square b N -> inside N (fst seed) (snd seed) -> N < Z.of_nat fuel ->
  weights_all_zero w -> 1 <= reps ->
  optimize_spec fuel b seed c w reps N = Done seed.
Proof.
  intros Hsq Hseed Hfuel Hw Hreps. unfold optimize_spec.
  rewrite (mean_scores_zero b N fuel c w reps _ Hsq Hfuel Hw Hreps
             (candidates_inside b N seed Hseed)).
  cbn [bind]. unfold candidates_spec. cbn [map].
  rewrite running_best_all_zero. reflexivity.
Qed.

(** ** C9 *)

(** C9. When every field of the weight record is zero, the optimiser returns
    the seed: this holds for the body of [mcts_optimize] run with any such
    record (the source runs it with [Weights{}]) and for the optimiser of
    the specification, on every square board, seed inside it, colour in
    {1, 2} and number of repetitions from 1 on. *)
Theorem optimize_zero_weights_returns_seed
    (b : board) N fuel seed c depth iterations w :
  weights_all_zero w ->
  square b N -> inside N (fst seed) (snd seed) -> is_player c ->
  1 <= iterations -> N < Z.of_nat fuel ->
  mcts_optimize_with w fuel b seed c depth iterations N = Done seed /\
  mcts_optimize fuel b seed c depth iterations N = Done seed /\
  optimize_spec fuel b seed c w iterations N = Done seed.
Proof.
  intros Hw Hsq Hseed _ Hit Hfuel. split; [|split].
  - now apply mcts_optimize_with_zero.
  - unfold mcts_optimize.
    apply mcts_optimize_with_zero; auto using Weights_default_zero.
  - now apply optimize_spec_zero.
Qed.

Lemma optimize_zero_weights_returns_seed_witness :
  mcts_optimize_with negative_zero_weights 6 cross_board (2, 2) 1 3 4 5
  = Done (2, 2) /\
  mcts_optimize 6 cross_board (2, 2) 1 3 4 5 = Done (2, 2) /\
  optimize_spec 6 cross_board (2, 2) 1 negative_zero_weights 4 5
  = Done (2, 2).
Proof.
  apply (optimize_zero_weights_returns_seed cross_board 5 6 (2, 2) 1 3 4
           negative_zero_weights).
  - repeat split.
  - exact cross_board_square.
  - unfold inside. cbn. lia.
  - left. reflexivity.
  - lia.
  - lia.
Defined.

(** ** C10 *)

(** C10. On a square board, for a start move inside it, any colour, any
    depth and at least one iteration, [mcts_optimize] returns the start
    move.  Every cell of the board, taken as a candidate, accumulates the
    score +0 under the internal record [Weights{}] and keeps it after the
    division by the number of iterations; the first candidate, the start
    move, beats the initial -1e9 and no later one exceeds it strictly.
    Changing the depth or the number of iterations does not change the
    result. *)
Theorem mcts_optimize_returns_init (b : board) N fuel init c depth iterations :
  square b N -> inside N (fst init) (snd init) ->
  1 <= iterations -> N < Z.of_nat fuel ->
  mcts_optimize fuel b init c depth iterations N = Done init /\
  (forall x y,
      inside N x y ->
      accumulate_score fuel (Z.to_nat iterations) b (x, y) c Weights_default
                       N F32.zero = Done F32.zero /\
      F32.div F32.zero (F32.of_int iterations) = F32.zero) /\
  (forall depth' iterations',
      1 <= iterations' ->
      mcts_optimize fuel b init c depth' iterations' N
      = mcts_optimize fuel b init c depth iterations N).
Proof.
  intros Hsq Hinit Hit Hfuel.
  assert (Hres : forall d i, 1 <= i ->
            mcts_optimize fuel b init c d i N = Done init).
  { intros d i Hi. unfold mcts_optimize.
    apply mcts_optimize_with_zero; auto using Weights_default_zero. }
  split; [now apply Hres|]. split.
  - intros x y Hin. split.
    + apply accumulate_score_zero with (N := N);
        auto using Weights_default_zero.
    + now apply div_zero_of_int.
  - intros depth' iterations' Hit'. rewrite !Hres by assumption. reflexivity.
Qed.

Lemma mcts_optimize_returns_init_witness :
  mcts_optimize 6 cross_board (2, 2) 1 3 4 5 = Done (2, 2).
Proof.
  refine (proj1 (mcts_optimize_returns_init cross_board 5 6 (2, 2) 1 3 4
                   cross_board_square _ _ _)).
  - unfold inside. cbn. lia.
  - lia.
  - lia.
Defined.

(** ** C1 *)

(** C1, as stated, fails: [mcts_optimize] has no weight argument.  On
    [cross_board] with seed (2,2) and colour 1 the neighbour (1,1) scores
    130 under [sample_weights] against 4 for the seed, so the optimiser of
    the specification answers (1,1); the code answers the seed. *)
Lemma optimize_uses_caller_weights_fails : ~ optimize_uses_caller_weights.
Proof.
  intros Hclaim.
  specialize (Hclaim 6%nat cross_board 5 (2, 2) 1 sample_weights 1 0
                cross_board_square).
  assert (Hbad : mcts_optimize 6 cross_board (2, 2) 1 0 1 5
                 = optimize_spec 6 cross_board (2, 2) 1 sample_weights 1 5).
  { apply Hclaim.
    - unfold inside. cbn. lia.
    - left. reflexivity.
    - lia.
    - lia. }
  vm_compute in Hbad. discriminate Hbad.
Qed.

(** C1, amended.  [mcts_optimize] enumerates the seed first and then those
    of the eight neighbours, in the order (-1,-1), (0,-1), (1,-1), (-1,0),
    (1,0), (-1,1), (0,1), (1,1), that are on the board and empty; it scores
    every candidate by the mean of [iterations] evaluations under the
    all-zero record [Weights{}], not under weights of the caller; and it
    returns what the optimiser of the specification returns for that
    record: the earliest candidate of highest score. *)
Theorem mcts_optimize_fixed_weights (b : board) N fuel seed c depth iterations :
  square b N -> inside N (fst seed) (snd seed) -> is_player c ->
  1 <= iterations -> N < Z.of_nat fuel ->
  collect_candidates b seed N neighbour_offsets [seed]
  = Done (candidates_spec b N seed) /\
  (forall p, In p (candidates_spec b N seed) ->
             mean_score fuel b c Weights_default N iterations p
             = Done F32.zero) /\
  mcts_optimize fuel b seed c depth iterations N
  = optimize_spec fuel b seed c Weights_default iterations N.
Proof.
  intros Hsq Hseed _ Hit Hfuel. split; [|split].
  - rewrite (collect_candidates_spec b N seed Hsq). reflexivity.
  - intros p Hp.
    pose proof (candidates_inside b N seed Hseed) as Hall.
    rewrite List.Forall_forall in Hall.
    apply mean_score_zero with (N := N);
      auto using Weights_default_zero.
  - unfold mcts_optimize.
    rewrite mcts_optimize_with_zero by auto using Weights_default_zero.
    rewrite optimize_spec_zero by auto using Weights_default_zero.
    reflexivity.
Qed.

Lemma mcts_optimize_fixed_weights_witness :
  collect_candidates cross_board (0, 0) 5 neighbour_offsets [(0, 0)]
  = Done [(0, 0); (1, 1)] /\
  mcts_optimize 6 cross_board (0, 0) 1 0 2 5
  = optimize_spec 6 cross_board (0, 0) 1 Weights_default 2 5.
Proof.
  destruct (mcts_optimize_fixed_weights cross_board 5 6 (0, 0) 1 0 2)
    as (Hcands & _ & Hres).
  - exact cross_board_square.
  - unfold inside. cbn. lia.
  - left. reflexivity.
  - lia.
  - lia.
  - split; [exact Hcands|exact Hres].
Defined.

(** * Further properties of the core *)

(** ** Boards are determined by their cells *)

Lemma set_outside (b : board) N x y v :
  square b N -> ~ inside N x y -> set b x y v = Undefined.
Proof.
  intros Hsq Hout. unfold set.
  destruct ((x <? 0) || (y <? 0)) eqn:Hneg; [reflexivity|].
  destruct (b !! Z.to_nat x) as [row|] eqn:Hrow; [|reflexivity].
  pose proof (lookup_lt_Some _ _ _ Hrow) as Hx.
  pose proof (square_row _ _ _ _ Hsq Hrow) as Hlen.
  destruct Hsq as [Hrows _].
  destruct (decide (Z.to_nat y < length row)%nat) as [Hy|]; [|reflexivity].
  exfalso. apply Hout. unfold inside. lia.
Qed.

Lemma board_ext (b b' : board) N :
  square b N -> square b' N ->
  (forall x y, inside N x y -> get b x y = get b' x y) -> b = b'.
Proof.
  intros Hsq Hsq' Hget. apply list_eq. intros i.
  destruct (b !! i) as [row|] eqn:Hrow.
  - pose proof (lookup_lt_Some _ _ _ Hrow) as Hi.
    destruct (lookup_lt_is_Some_2 b' i) as [row' Hrow'].
    { destruct Hsq as [? _], Hsq' as [? _]. lia. }
    rewrite Hrow'. f_equal. apply list_eq. intros j.
    pose proof (square_row _ _ _ _ Hsq Hrow) as Hlen.
    pose proof (square_row _ _ _ _ Hsq' Hrow') as Hlen'.
    destruct (row !! j) as [v|] eqn:Hv.
    + pose proof (lookup_lt_Some _ _ _ Hv) as Hj.
      assert (Hin : inside N (Z.of_nat i) (Z.of_nat j)).
      { destruct Hsq as [? _]. unfold inside. lia. }
      specialize (Hget _ _ Hin). unfold get in Hget.
      replace ((Z.of_nat i <? 0) || (Z.of_nat j <? 0)) with false in Hget
        by lia.
      rewrite !Nat2Z.id, Hrow, Hrow', Hv in Hget.
      destruct (row' !! j); congruence.
    + apply lookup_ge_None in Hv. symmetry. apply lookup_ge_None. lia.
  - apply lookup_ge_None in Hrow. symmetry. apply lookup_ge_None.
    destruct Hsq as [? _], Hsq' as [? _]. lia.
Qed.

(** ** check_line *)

Lemma room_inside N x y dx dy :
  unit_dir dx dy -> inside N x y -> 0 <= room N x y dx dy <= N.
Proof.
  intros Hdir [Hx Hy]. unfold room. split_dir dx dy Hdir; cbn; lia.
Qed.

(** X1. [check_line], started anywhere, walking one cell at a time along a
    row, a column or a diagonal of a square board, returns with any fuel
    above the side of the board.  Its result [n] is at most the side; the
    [n] cells from the start on are on the board and hold the colour, and
    the next one is off the board or holds something else.  More fuel does
    not change the result. *)
Theorem check_line_counts (b : board) N color dx dy fuel x y :
  square b N -> unit_dir dx dy -> N < Z.of_nat fuel ->
  exists n,
    check_line fuel b x y dx dy color N = Done n /\
    0 <= n <= N /\
    (forall t, 0 <= t < n ->
               inside N (x + t * dx) (y + t * dy) /\
               get b (x + t * dx) (y + t * dy) = Done color) /\
    ~ (inside N (x + n * dx) (y + n * dy) /\
       get b (x + n * dx) (y + n * dy) = Done color) /\
    forall fuel', N < Z.of_nat fuel' ->
                  check_line fuel' b x y dx dy color N = Done n.
Proof.
  intros Hsq Hdir Hfuel.
  assert (HN : 0 <= N) by (destruct Hsq as [<- _]; lia).
  assert (Hrun : forall f, N < Z.of_nat f ->
            exists n,
              check_line f b x y dx dy color N = Done n /\ 0 <= n /\
              (forall t, 0 <= t < n ->
                         inside N (x + t * dx) (y + t * dy) /\
                         get b (x + t * dx) (y + t * dy) = Done color) /\
              ~ (inside N (x + n * dx) (y + n * dy) /\
                 get b (x + n * dx) (y + n * dy) = Done color)).
  { intros f Hf. unfold check_line.
    destruct (in_bounds x y N) eqn:Hin.
    - apply in_bounds_true in Hin.
      destruct (check_line_loop_spec b N color dx dy Hsq Hdir f x y 0)
        as (n & Hres & Hn & Hcells & Hend).
      + destruct Hin. lia.
      + destruct Hin. lia.
      + pose proof (room_inside N x y dx dy Hdir Hin). lia.
      + exists n. rewrite Hres. split; [f_equal; lia|].
        split; [exact Hn|]. split; [exact Hcells|exact Hend].
    - destruct f as [|f]; [lia|]. cbn [check_line_loop]. rewrite Hin.
      apply in_bounds_false in Hin. exists 0.
      split; [reflexivity|]. split; [lia|]. split; [intros t Ht; lia|].
      rewrite !Z.mul_0_l, !Z.add_0_r. intros [H _]. contradiction. }
  destruct (Hrun fuel Hfuel) as (n & Hres & Hn & Hcells & Hend).
  exists n. split; [exact Hres|]. split; [|split; [exact Hcells|]].
  - split; [exact Hn|].
    destruct (Z.eq_dec n 0) as [->|Hnz]; [lia|].
    destruct (Hcells 0 ltac:(lia)) as [[Hx0 Hy0] _].
    destruct (Hcells (n - 1) ltac:(lia)) as [[Hx1 Hy1] _].
    split_dir dx dy Hdir; lia.
  - split; [exact Hend|]. intros fuel' Hfuel'.
    destruct (Hrun fuel' Hfuel') as (m & Hres' & Hm & Hcells' & Hend').
    rewrite Hres'. f_equal.
    destruct (Z.lt_trichotomy m n) as [Hlt|[Heq|Hgt]]; [|exact Heq|].
    + exfalso. apply Hend'. apply Hcells. lia.
    + exfalso. apply Hend. apply Hcells'. lia.
Qed.

Lemma check_line_counts_witness :
  exists n,
    check_line 6 cross_board 0 1 0 1 1 5 = Done n /\
    0 <= n <= 5 /\
    (forall t, 0 <= t < n ->
               inside 5 (0 + t * 0) (1 + t * 1) /\
               get cross_board (0 + t * 0) (1 + t * 1) = Done 1) /\
    ~ (inside 5 (0 + n * 0) (1 + n * 1) /\
       get cross_board (0 + n * 0) (1 + n * 1) = Done 1) /\
    forall fuel', 5 < Z.of_nat fuel' ->
                  check_line fuel' cross_board 0 1 0 1 1 5 = Done n.
Proof.
  apply (check_line_counts cross_board 5 1 0 1 6 0 1 cross_board_square).
  - unfold unit_dir. lia.
  - lia.
Defined.

Lemma check_line_loop_stuck (b : board) N color x y :
  in_bounds x y N = true -> get b x y = Done color ->
  forall fuel count,
    check_line_loop fuel b x y 0 0 color N count = OutOfFuel.
Proof.
  intros Hin Hget fuel. induction fuel as [|fuel IH]; intros count.
  - reflexivity.
  - cbn [check_line_loop]. rewrite Hin, Hget. cbn [bind].
    rewrite Z.eqb_refl, !Z.add_0_r. apply IH.
Qed.

(** With the direction (0, 0), started on a cell of the board that holds the
    colour, the loop of [check_line] never leaves: whatever the fuel, the run
    ends by exhausting it.  The four axes of [dirs] exclude that direction. *)
Theorem check_line_zero_direction_diverges (b : board) N color x y fuel :
  square b N -> inside N x y -> get b x y = Done color ->
  check_line fuel b x y 0 0 color N = OutOfFuel.
Proof.
  intros _ Hin Hget. unfold check_line.
  apply check_line_loop_stuck; [|exact Hget]. now apply in_bounds_true.
Qed.

Lemma check_line_zero_direction_diverges_witness :
  check_line 1000 cross_board 0 0 0 0 1 5 = OutOfFuel.
Proof.
  apply (check_line_zero_direction_diverges cross_board 5 1 0 0 1000
           cross_board_square).
  - unfold inside. lia.
  - reflexivity.
Defined.

(** ** Positions are not validated by the operations that write *)

(** X2. [place_piece] and [evaluate_move] write the cell without any check:
    on a square board a position outside the board makes both undefined
    (a vector subscript out of range), whatever the colour. *)
Theorem unvalidated_position_is_undefined (b : board) N fuel x y c w :
  square b N -> ~ inside N x y ->
  place_piece b x y c N = Undefined /\
  evaluate_move fuel b x y c w N = Undefined.
Proof.
  intros Hsq Hout. unfold place_piece, evaluate_move.
  rewrite (set_outside b N x y c Hsq Hout). split; reflexivity.
Qed.

Lemma unvalidated_position_is_undefined_witness :
  place_piece cross_board 5 0 1 5 = Undefined /\
  evaluate_move 6 cross_board 5 0 1 sample_weights 5 = Undefined.
Proof.
  apply (unvalidated_position_is_undefined cross_board 5 6 5 0 1
           sample_weights cross_board_square).
  unfold inside. lia.
Defined.

(** ** validate_move and place_piece together *)

Lemma validate_move_success_inv (b : board) N x y p :
  validate_move b x y p N = Done (true, "success"%string) ->
  inside N x y /\ get b x y = Done 0 /\ is_player p.
Proof.
  unfold validate_move, is_player.
  destruct ((x <? 0) || (x >=? N) || (y <? 0) || (y >=? N)) eqn:Hout;
    [discriminate|].
  destruct (get b x y) as [v| |]; cbn [bind]; try discriminate.
  destruct (Z.eqb_spec v 0) as [->|]; cbn [negb]; [|discriminate].
  destruct (Z.eqb_spec p 1); destruct (Z.eqb_spec p 2); cbn [negb andb];
    try discriminate; intros _; (split; [unfold inside; lia|]);
    (split; [reflexivity|]); lia.
Qed.

Lemma validate_move_agree (b b' : board) N x y p :
  get b x y = get b' x y ->
  validate_move b x y p N = validate_move b' x y p N.
Proof. intros Hget. unfold validate_move. now rewrite Hget. Qed.

(** X3. A move accepted by [validate_move] can be placed: [place_piece] is
    then defined and returns a square board on which the same position is
    refused as "occupied" for every player code, while every other position
    is judged as before. *)
Theorem validated_move_can_be_placed (b : board) N x y p :
  square b N ->
  validate_move b x y p N = Done (true, "success"%string) ->
  exists b',
    place_piece b x y p N = Done b' /\ square b' N /\
    (forall q, validate_move b' x y q N = Done (false, "occupied"%string)) /\
    (forall x' y' q, (x', y') <> (x, y) ->
                     validate_move b' x' y' q N = validate_move b x' y' q N).
Proof.
  intros Hsq Hok.
  destruct (validate_move_success_inv b N x y p Hok) as (Hin & _ & Hp).
  destruct (set_inside b N x y p Hsq Hin) as (b' & Hset & Hsq' & Hget & Hframe).
  exists b'. unfold place_piece. rewrite Hset. cbn [bind].
  split; [reflexivity|]. split; [exact Hsq'|]. split.
  - intros q. unfold validate_move.
    replace ((x <? 0) || (x >=? N) || (y <? 0) || (y >=? N)) with false
      by (unfold inside in Hin; lia).
    rewrite Hget. cbn [bind].
    destruct (Z.eqb_spec p 0) as [->|_]; [destruct Hp; lia|reflexivity].
  - intros x' y' q Hne. apply validate_move_agree. now apply Hframe.
Qed.

Lemma validated_move_can_be_placed_witness :
  exists b',
    place_piece cross_board 2 2 2 5 = Done b' /\ square b' 5 /\
    (forall q, validate_move b' 2 2 q 5 = Done (false, "occupied"%string)) /\
    (forall x' y' q, (x', y') <> (2, 2) ->
                     validate_move b' x' y' q 5
                     = validate_move cross_board x' y' q 5).
Proof.
  apply (validated_move_can_be_placed cross_board 5 2 2 2 cross_board_square).
  reflexivity.
Defined.

(** ** Successive placements *)

(** X4. On a square board, placing twice on the same position keeps only
    the second colour, and placements on two different positions of the
    board give the same board in either order. *)
Theorem place_piece_overwrites_and_commutes (b : board) N x y x' y' c c' :
  square b N -> inside N x y -> inside N x' y' ->
  (do b1 <- place_piece b x y c N; place_piece b1 x y c' N)
  = place_piece b x y c' N
  /\
  ((x, y) <> (x', y') ->
   (do b1 <- place_piece b x y c N; place_piece b1 x' y' c' N)
   = (do b2 <- place_piece b x' y' c' N; place_piece b2 x y c N)).
Proof.
  intros Hsq Hin Hin'. unfold place_piece.
  destruct (set_inside b N x y c Hsq Hin) as (b1 & Hs1 & Hsq1 & Hg1 & Hf1).
  rewrite Hs1. cbn [bind]. split.
  - destruct (set_inside b1 N x y c' Hsq1 Hin) as (b2 & Hs2 & Hsq2 & Hg2 & Hf2).
    destruct (set_inside b N x y c' Hsq Hin) as (b3 & Hs3 & Hsq3 & Hg3 & Hf3).
    rewrite Hs2, Hs3. cbn [bind]. f_equal.
    apply (board_ext b2 b3 N Hsq2 Hsq3). intros u v _.
    destruct (decide ((u, v) = (x, y))) as [Heq|Hne].
    + injection Heq as -> ->. congruence.
    + rewrite Hf2, Hf3, Hf1 by exact Hne. reflexivity.
  - intros Hdiff.
    destruct (set_inside b1 N x' y' c' Hsq1 Hin')
      as (b2 & Hs2 & Hsq2 & Hg2 & Hf2).
    destruct (set_inside b N x' y' c' Hsq Hin')
      as (b3 & Hs3 & Hsq3 & Hg3 & Hf3).
    destruct (set_inside b3 N x y c Hsq3 Hin) as (b4 & Hs4 & Hsq4 & Hg4 & Hf4).
    rewrite Hs2, Hs3. cbn [bind]. rewrite Hs4. cbn [bind]. f_equal.
    apply (board_ext b2 b4 N Hsq2 Hsq4). intros u v _.
    destruct (decide ((u, v) = (x, y))) as [Heq|Hne].
    + injection Heq as -> ->. rewrite Hf2 by exact Hdiff. congruence.
    + destruct (decide ((u, v) = (x', y'))) as [Heq'|Hne'].
      * injection Heq' as -> ->. rewrite Hf4 by exact Hne. congruence.
      * rewrite Hf2, Hf4, Hf1, Hf3 by assumption. reflexivity.
Qed.

Lemma place_piece_overwrites_and_commutes_witness :
  (do b1 <- place_piece cross_board 1 1 2 5; place_piece b1 1 1 1 5)
  = place_piece cross_board 1 1 1 5
  /\
  ((1, 1) <> (3, 2) ->
   (do b1 <- place_piece cross_board 1 1 2 5; place_piece b1 3 2 1 5)
   = (do b2 <- place_piece cross_board 3 2 1 5; place_piece b2 1 1 2 5)).
Proof.
  apply (place_piece_overwrites_and_commutes cross_board 5 1 1 3 2 2 1
           cross_board_square); unfold inside; lia.
Defined.

(** ** Shape of the result of check_game_end *)

(** X5. On a square board [check_game_end] always returns, and its result
    is well formed: with a nonzero winner the game is ended, the line has
    exactly [win_line_size] = 5 positions, each of them on the board and
    holding the winner's colour; with winner 0 (draw or unfinished game)
    the line is empty and [win_line_size] is 0. *)
Theorem check_game_end_result_shape (b : board) N :
  square b N ->
  exists r,
    check_game_end b N = Done r /\
    (winner r <> 0 ->
     is_end r = true /\ win_line_size r = 5 /\
     length (win_line r) = 5%nat /\
     Forall (fun p => inside N (fst p) (snd p) /\
                      get b (fst p) (snd p) = Done (winner r))
            (win_line r)) /\
    (winner r = 0 -> win_line r = [] /\ win_line_size r = 0).
Proof.
  intros Hsq.
  destruct (check_game_end_cases b N Hsq)
    as [(a & i & j & c & (Hin & Hwin & _) & Hres)
       |[(_ & _ & Hres)|(_ & _ & Hres)]].
  - exists (Win c (window_cells a i j)). split; [exact Hres|]. split.
    + intros _. cbn [Win is_end win_line_size win_line winner].
      repeat split. unfold window_cells.
      apply List.Forall_forall. intros p Hp.
      apply List.in_map_iff in Hp as (k & <- & Hk).
      assert (0 <= k < 5) by (cbn in Hk; lia).
      split; [now apply Hin|]. destruct Hwin as [_ Hall]. now apply Hall.
    + cbn. intros ->. destruct Hwin as [Hc _]. contradiction.
  - exists Draw. split; [exact Hres|]. cbn. split; [congruence|auto].
  - exists Ongoing. split; [exact Hres|]. cbn. split; [congruence|auto].
Qed.

Lemma check_game_end_result_shape_witness :
  exists r,
    check_game_end twin_diagonals 9 = Done r /\
    (winner r <> 0 ->
     is_end r = true /\ win_line_size r = 5 /\
     length (win_line r) = 5%nat /\
     Forall (fun p => inside 9 (fst p) (snd p) /\
                      get twin_diagonals (fst p) (snd p) = Done (winner r))
            (win_line r)) /\
    (winner r = 0 -> win_line r = [] /\ win_line_size r = 0).
Proof.
  apply (check_game_end_result_shape twin_diagonals 9 twin_diagonals_square).
Defined.

(** ** Boards too small for a five *)




(** X7. On a square board of side below 5 nobody ever wins: the result is
    a draw when every cell is nonzero and an unfinished game otherwise. *)
Theorem check_game_end_small_board (b : board) N :
  square b N -> N < 5 ->
  (check_game_end b N = Done Draw /\ filled b N)
  \/
  (check_game_end b N = Done Ongoing /\
   exists x y, inside N x y /\ get b x y = Done 0).
Proof.
  intros Hsq HN.
  destruct (check_game_end_cases b N Hsq)
    as [(a & i & j & c & (Hin & _) & _)
       |[(_ & Hfull & Hres)|(_ & Hzero & Hres)]].
  - exfalso. apply window_inside_iff in Hin. destruct a; lia.
  - left. split; assumption.
  - right. split; assumption.
Qed.

Lemma check_game_end_small_board_witness :
  (check_game_end [[1; 2]; [2; 1]] 2 = Done Draw /\
   filled [[1; 2]; [2; 1]] 2)
  \/
  (check_game_end [[1; 2]; [2; 1]] 2 = Done Ongoing /\
   exists x y, inside 2 x y /\ get [[1; 2]; [2; 1]] x y = Done 0).
Proof.
  apply (check_game_end_small_board [[1; 2]; [2; 1]] 2).
  - square_example.
  - lia.
Defined.

(** ** A finished game stays finished *)

Lemma in_window_dec a i j x y :
  (exists k, 0 <= k < 5 /\ cell_at a i j k = (x, y)) \/
  (forall k, 0 <= k < 5 -> cell_at a i j k <> (x, y)).
Proof.
  destruct a; cbn [cell_at].
  - assert (H : (i = x /\ 0 <= y - j < 5) \/ ~ (i = x /\ 0 <= y - j < 5))
      by lia.
    destruct H as [[-> H]|H].
    + left. exists (y - j). split; [lia|]. f_equal. lia.
    + right. intros k Hk Heq. injection Heq as ? ?. lia.
  - assert (H : (j = y /\ 0 <= x - i < 5) \/ ~ (j = y /\ 0 <= x - i < 5))
      by lia.
    destruct H as [[-> H]|H].
    + left. exists (x - i). split; [lia|]. f_equal. lia.
    + right. intros k Hk Heq. injection Heq as ? ?. lia.
  - assert (H : (y - j = x - i /\ 0 <= x - i < 5)
                \/ ~ (y - j = x - i /\ 0 <= x - i < 5)) by lia.
    destruct H as [[He H]|H].
    + left. exists (x - i). split; [lia|]. f_equal; lia.
    + right. intros k Hk Heq. injection Heq as ? ?. lia.
  - assert (H : (j - y = x - i /\ 0 <= x - i < 5)
                \/ ~ (j - y = x - i /\ 0 <= x - i < 5)) by lia.
    destruct H as [[He H]|H].
    + left. exists (x - i). split; [lia|]. f_equal; lia.
    + right. intros k Hk Heq. injection Heq as ? ?. lia.
Qed.

(** A stone put on an empty cell of a board that has a five leaves a five:
    the first one is of the old winner's colour or of the new stone's. *)
Lemma five_survives_placement (b b' : board) N a i j c x y col :
  square b N -> first_five b N a i j c ->
  inside N x y -> get b x y = Done 0 -> set b x y col = Done b' ->
  exists a' i' j' c',
    first_five b' N a' i' j' c' /\ (c' = c \/ c' = col) /\
    check_game_end b' N = Done (Win c' (window_cells a' i' j')).
Proof.
  intros Hsq (Hin & Hwin & Hfirst) Hxy Hempty Hset.
  destruct (set_inside b N x y col Hsq Hxy) as (b'' & Hset' & Hsq' & Hget & Hframe).
  assert (b'' = b') as -> by congruence.
  assert (Hkeep : window_wins b' a i j c).
  { destruct Hwin as [Hc Hall]. split; [exact Hc|]. intros k Hk.
    rewrite Hframe; [now apply Hall|].
    intros Heq. specialize (Hall k Hk).
    destruct (cell_at a i j k) as [u v]. cbn [fst snd] in Hall.
    injection Heq as -> ->. congruence. }
  destruct (check_game_end_cases b' N Hsq')
    as [(a' & i' & j' & c' & Hfirst' & Hres)|[(Hno & _)|(Hno & _)]].
  2,3: destruct (Hno _ _ _ _ Hin Hkeep).
  exists a', i', j', c'. split; [exact Hfirst'|]. split; [|exact Hres].
  destruct Hfirst' as (Hin' & Hwin' & Hbefore').
  destruct (in_window_dec a' i' j' x y) as [(k & Hk & Hcell)|Hnotin].
  - right. destruct Hwin' as [_ Hall]. specialize (Hall k Hk).
    rewrite Hcell in Hall. cbn [fst snd] in Hall. congruence.
  - left.
    assert (Hold : window_wins b a' i' j' c').
    { destruct Hwin' as [Hc Hall]. split; [exact Hc|]. intros k Hk.
      rewrite <- Hframe; [now apply Hall|].
      specialize (Hnotin k Hk).
      destruct (cell_at a' i' j' k) as [u v]. exact Hnotin. }
    destruct (scanned_trichotomy a' i' j' a i j) as [H|[(-> & -> & ->)|H]].
    + destruct (Hfirst _ _ _ _ Hin' H Hold).
    + eapply window_wins_color; eassumption.
    + destruct (Hbefore' _ _ _ _ Hin H Hkeep).
Qed.

(** X8. Once a square board has a winner, putting a further stone of any
    colour on any empty cell gives a board that [check_game_end] still
    reports as ended; its winner is the previous winner or the colour just
    placed. *)
Theorem game_over_stays_over (b : board) N r x y col :
  square b N ->
  check_game_end b N = Done r -> is_end r = true ->
  inside N x y -> get b x y = Done 0 ->
  exists b' r',
    place_piece b x y col N = Done b' /\
    check_game_end b' N = Done r' /\
    is_end r' = true /\ (winner r' = winner r \/ winner r' = col).
Proof.
  intros Hsq Hres Hend Hxy Hempty.
  destruct (set_inside b N x y col Hsq Hxy) as (b' & Hset & _).
  destruct (check_game_end_cases b N Hsq)
    as [(a & i & j & c & Hfirst & Hres')
       |[(_ & Hfull & _)|(_ & _ & Hres')]].
  - destruct (five_survives_placement b b' N a i j c x y col Hsq Hfirst
                Hxy Hempty Hset) as (a' & i' & j' & c' & _ & Hc & Hres'').
    exists b', (Win c' (window_cells a' i' j')).
    unfold place_piece. rewrite Hset. cbn [bind].
    split; [reflexivity|]. split; [exact Hres''|]. split; [reflexivity|].
    assert (r = Win c (window_cells a i j)) as -> by congruence.
    exact Hc.
  - destruct (Hfull x y Hxy Hempty).
  - assert (r = Ongoing) as -> by congruence. discriminate Hend.
Qed.

Lemma game_over_stays_over_witness :
  exists b' r',
    place_piece cross_board 1 1 2 5 = Done b' /\
    check_game_end b' 5 = Done r' /\
    is_end r' = true /\
    (winner r' = winner (Win 1 (window_cells Horizontal 0 0)) \/ winner r' = 2).
Proof.
  apply (game_over_stays_over cross_board 5
           (Win 1 (window_cells Horizontal 0 0)) 1 1 2 cross_board_square).
  - reflexivity.
  - reflexivity.
  - unfold inside. lia.
  - reflexivity.
Defined.

(** ** find_winning_move: what its answer means *)

Lemma find_winning_move_cases (b : board) N c :
  square b N ->
  (find_winning_move b c N = Done (-1, -1) /\
   forall i j, ~ winning_cell b N c i j)
  \/
  (exists i j,
      winning_cell b N c i j /\
      (forall i' j', row_major_before i' j' i j ->
                     ~ winning_cell b N c i' j') /\
      find_winning_move b c N = Done (i, j)).
Proof.
  intros Hsq.
  pose (body := fun i j : Z =>
    do v <- get b i j;
    if negb (v =? 0) then Done None
    else
      do temp_board <- set b i j c;
      do result <- check_game_end temp_board N;
      if is_end result && (winner result =? c)
      then Done (Some (i, j))
      else Done None).
  change (find_winning_move b c N)
    with (do r <- for_range 0 N (fun u => for_range 0 N (body u));
          Done (match r with Some p => p | None => (-1, -1) end)).
  assert (Hbody : forall i j, 0 <= i < N -> 0 <= j < N ->
            (winning_cell b N c i j /\ body i j = Done (Some (i, j)))
            \/ (~ winning_cell b N c i j /\ body i j = Done None)).
  { intros i j Hi Hj. apply find_body_cases; [exact Hsq|]. split; assumption. }
  destruct (nested_range_cases body 0 N 0 N)
    as [[Hnone Hall]|(u & v & r & Hu & Hv & Hr & Hbefore & Hres)].
  { intros u v Hu Hv. destruct (Hbody u v Hu Hv) as [[_ H]|[_ H]]; eauto. }
  - left. rewrite Hnone. cbn [bind]. split; [reflexivity|].
    intros i j Hcell.
    destruct (winning_cell_inside _ _ _ _ _ Hcell) as [Hi Hj].
    specialize (Hall i j Hi Hj).
    destruct (Hbody i j Hi Hj) as [[_ H]|[H _]]; [congruence|auto].
  - right. rewrite Hres. cbn [bind].
    destruct (Hbody u v Hu Hv) as [[Hcell H]|[_ H]]; [|congruence].
    assert (r = (u, v)) as -> by congruence.
    exists u, v. split; [exact Hcell|]. split; [|reflexivity].
    intros i' j' Hlt Hcell'.
    destruct (winning_cell_inside _ _ _ _ _ Hcell') as [Hi Hj].
    specialize (Hbefore i' j' Hi Hj Hlt).
    destruct (Hbody i' j' Hi Hj) as [[_ H']|[H' _]]; [congruence|auto].
Qed.

(** X9. On a square board [find_winning_move] always returns, and its
    answer can be trusted both ways: (-1, -1) is returned only when no
    empty cell wins for the colour; any other answer is an empty cell of the
    board such that [place_piece] there followed by [check_game_end] gives
    an ended game won by the colour. *)
Theorem find_winning_move_sound (b : board) N c :
  square b N ->
  exists p,
    find_winning_move b c N = Done p /\
    ((p = (-1, -1) /\ forall i j, ~ winning_cell b N c i j)
     \/
     (inside N (fst p) (snd p) /\ get b (fst p) (snd p) = Done 0 /\
      exists b' r,
        place_piece b (fst p) (snd p) c N = Done b' /\
        check_game_end b' N = Done r /\
        is_end r = true /\ winner r = c)).
Proof.
  intros Hsq.
  destruct (find_winning_move_cases b N c Hsq)
    as [[Hres Hno]|(i & j & Hcell & _ & Hres)].
  - exists (-1, -1). split; [exact Hres|]. left. split; [reflexivity|exact Hno].
  - exists (i, j). split; [exact Hres|]. right. cbn [fst snd].
    destruct Hcell as (Hin & Hempty & b' & r & Hset & Hr & Hend & Hw).
    split; [exact Hin|]. split; [exact Hempty|].
    exists b', r. unfold place_piece. rewrite Hset. cbn [bind]. auto.
Qed.

Lemma find_winning_move_sound_witness :
  exists p,
    find_winning_move four_and_gap 1 5 = Done p /\
    ((p = (-1, -1) /\ forall i j, ~ winning_cell four_and_gap 5 1 i j)
     \/
     (inside 5 (fst p) (snd p) /\
      get four_and_gap (fst p) (snd p) = Done 0 /\
      exists b' r,
        place_piece four_and_gap (fst p) (snd p) 1 5 = Done b' /\
        check_game_end b' 5 = Done r /\
        is_end r = true /\ winner r = 1)).
Proof.
  apply (find_winning_move_sound four_and_gap 5 1). square_example.
Defined.

Lemma row_major_trichotomy i j i' j' :
  row_major_before i j i' j' \/ (i = i' /\ j = j') \/
  row_major_before i' j' i j.
Proof. unfold row_major_before. lia. Qed.

(** X10. [find_winning_move] does not ask whether the game is already
    over: on a square board that [check_game_end] reports as won by the
    colour, it returns the first empty cell in row-major order, and
    (-1, -1) when the board has no empty cell. *)
Theorem find_winning_move_on_won_board (b : board) N r c :
  square b N ->
  check_game_end b N = Done r -> is_end r = true -> winner r = c -> c <> 0 ->
  (forall x y, first_empty b N x y -> find_winning_move b c N = Done (x, y))
  /\
  (filled b N -> find_winning_move b c N = Done (-1, -1)).
Proof.
  intros Hsq Hres Hend Hw Hc.
  assert (Hfirst : exists a i j, first_five b N a i j c).
  { destruct (check_game_end_cases b N Hsq)
      as [(a & i & j & c' & Hfirst & Hres')
         |[(_ & _ & Hres')|(_ & _ & Hres')]].
    - assert (r = Win c' (window_cells a i j)) as -> by congruence.
      cbn in Hw. subst c'. eauto.
    - assert (r = Draw) as -> by congruence. cbn in Hw. congruence.
    - assert (r = Ongoing) as -> by congruence. discriminate Hend. }
  destruct Hfirst as (a & i & j & Hfirst).
  assert (Hwins : forall x y, inside N x y -> get b x y = Done 0 ->
                              winning_cell b N c x y).
  { intros x y Hxy Hempty.
    destruct (set_inside b N x y c Hsq Hxy) as (b' & Hset & _).
    destruct (five_survives_placement b b' N a i j c x y c Hsq Hfirst
                Hxy Hempty Hset) as (a' & i' & j' & c' & _ & Hc' & Hres').
    split; [exact Hxy|]. split; [exact Hempty|].
    exists b', (Win c' (window_cells a' i' j')).
    split; [exact Hset|]. split; [exact Hres'|]. split; [reflexivity|].
    cbn. destruct Hc'; assumption. }
  destruct (find_winning_move_cases b N c Hsq)
    as [[Hfind Hno]|(u & v & Hcell & Hbefore & Hfind)].
  - split.
    + intros x y (Hxy & Hempty & _).
      destruct (Hno x y (Hwins x y Hxy Hempty)).
    + intros _. exact Hfind.
  - split.
    + intros x y (Hxy & Hempty & Hleast). rewrite Hfind. f_equal.
      destruct (row_major_trichotomy u v x y) as [H|[[-> ->]|H]].
      * destruct Hcell as (Huv & Hzero & _).
        destruct (Hleast u v Huv H Hzero).
      * reflexivity.
      * destruct (Hbefore x y H (Hwins x y Hxy Hempty)).
    + intros Hfull. destruct Hcell as (Huv & Hzero & _).
      destruct (Hfull u v Huv Hzero).
Qed.

Lemma find_winning_move_on_won_board_witness :
  (forall x y, first_empty cross_board 5 x y ->
               find_winning_move cross_board 1 5 = Done (x, y))
  /\
  (filled cross_board 5 -> find_winning_move cross_board 1 5 = Done (-1, -1)).
Proof.
  apply (find_winning_move_on_won_board cross_board 5
           (Win 1 (window_cells Horizontal 0 0)) 1 cross_board_square).
  - reflexivity.
  - reflexivity.
  - reflexivity.
  - lia.
Defined.

Example find_on_won_cross_board :
  find_winning_move cross_board 1 5 = Done (1, 1).
Proof. vm_compute. reflexivity. Qed.

(** ** Relabelled boards *)

Lemma get_relabel f (b : board) x y :
  get (relabel f b) x y
  = match get b x y with
    | Done v => Done (f v)
    | Undefined => Undefined
    | OutOfFuel => OutOfFuel
    end.
Proof.
  unfold get, relabel.
  destruct ((x <? 0) || (y <? 0)); [reflexivity|].
  rewrite list_lookup_fmap.
  destruct (b !! Z.to_nat x) as [row|]; cbn; [|reflexivity].
  rewrite list_lookup_fmap.
  destruct (row !! Z.to_nat y); reflexivity.
Qed.

Lemma square_relabel f (b : board) N : square b N -> square (relabel f b) N.
Proof.
  intros [Hlen Hrows]. unfold relabel. split.
  - now rewrite length_fmap.
  - apply Forall_fmap. eapply Forall_impl; [exact Hrows|].
    intros row Hrow. cbn. now rewrite length_fmap.
Qed.

Section Relabelling.

Variable f : Z -> Z.
Hypothesis f_zero : f 0 = 0.
Hypothesis f_inj : forall u v, f u = f v -> u = v.

Lemma window_wins_relabel (b : board) a i j c :
  window_wins b a i j c -> window_wins (relabel f b) a i j (f c).
Proof.
  intros [Hc Hall]. split.
  - intros Hz. apply Hc. apply f_inj. congruence.
  - intros k Hk. rewrite get_relabel, (Hall k Hk). reflexivity.
Qed.

Lemma window_wins_relabel_inv (b : board) N a i j c' :
  square b N -> window_inside N a i j ->
  window_wins (relabel f b) a i j c' ->
  exists c, c' = f c /\ window_wins b a i j c.
Proof.
  intros Hsq Hin [Hc Hall].
  assert (Hcell : forall k, 0 <= k < 5 ->
            exists v, get b (fst (cell_at a i j k)) (snd (cell_at a i j k))
                      = Done v /\ f v = c').
  { intros k Hk. destruct (get_inside b N _ _ Hsq (Hin k Hk)) as [v Hv].
    exists v. split; [exact Hv|].
    specialize (Hall k Hk). rewrite get_relabel, Hv in Hall. congruence. }
  destruct (Hcell 0 ltac:(lia)) as (c & _ & Hfc).
  exists c. split; [congruence|]. split.
  - intros ->. congruence.
  - intros k Hk. destruct (Hcell k Hk) as (v & Hv & Hfv).
    rewrite Hv. f_equal. apply f_inj. congruence.
Qed.

Lemma first_five_relabel (b : board) N a i j c :
  square b N -> first_five b N a i j c ->
  first_five (relabel f b) N a i j (f c).
Proof.
  intros Hsq (Hin & Hwin & Hfirst). split; [exact Hin|].
  split; [now apply window_wins_relabel|].
  intros a' i' j' c' Hin' Hbefore Hwin'.
  destruct (window_wins_relabel_inv b N a' i' j' c' Hsq Hin' Hwin')
    as (c0 & _ & Hwin0).
  exact (Hfirst _ _ _ _ Hin' Hbefore Hwin0).
Qed.

Lemma no_five_relabel (b : board) N :
  square b N -> no_five b N -> no_five (relabel f b) N.
Proof.
  intros Hsq Hno a i j c' Hin Hwin.
  destruct (window_wins_relabel_inv b N a i j c' Hsq Hin Hwin)
    as (c & _ & Hwin0).
  exact (Hno _ _ _ _ Hin Hwin0).
Qed.

(** X11. [check_game_end] does not care how the players are numbered: if
    the nonzero cell values of a square board are renamed by an injective
    function that keeps 0, the result is the same ended flag, the same
    line and the renamed winner. *)
Theorem check_game_end_relabel (b : board) N :
  square b N ->
  exists r,
    check_game_end b N = Done r /\
    check_game_end (relabel f b) N = Done (relabel_result f r).
Proof.
  intros Hsq. pose proof (square_relabel f b N Hsq) as Hsq'.
  destruct (check_game_end_cases b N Hsq)
    as [(a & i & j & c & Hfirst & Hres)
       |[(Hno & Hfull & Hres)|(Hno & Hzero & Hres)]].
  - exists (Win c (window_cells a i j)). split; [exact Hres|].
    apply (check_game_end_first (relabel f b) N a i j (f c) Hsq').
    now apply first_five_relabel.
  - exists Draw. split; [exact Hres|].
    unfold relabel_result, Draw. cbn. rewrite f_zero.
    destruct (check_game_end_cases (relabel f b) N Hsq')
      as [(a & i & j & c & (Hin & Hwin & _) & _)
         |[(_ & _ & Hres')|(_ & (x & y & Hxy & Hget) & _)]].
    + destruct (no_five_relabel b N Hsq Hno _ _ _ _ Hin Hwin).
    + exact Hres'.
    + exfalso. destruct (get_inside b N x y Hsq Hxy) as [v Hv].
      rewrite get_relabel, Hv in Hget.
      apply (Hfull x y Hxy). rewrite Hv. f_equal. apply f_inj. congruence.
  - exists Ongoing. split; [exact Hres|].
    unfold relabel_result, Ongoing. cbn. rewrite f_zero.
    destruct (check_game_end_cases (relabel f b) N Hsq')
      as [(a & i & j & c & (Hin & Hwin & _) & _)
         |[(_ & Hfull' & _)|(_ & _ & Hres')]].
    + destruct (no_five_relabel b N Hsq Hno _ _ _ _ Hin Hwin).
    + exfalso. destruct Hzero as (x & y & Hxy & Hget).
      apply (Hfull' x y Hxy). rewrite get_relabel, Hget. congruence.
    + exact Hres'.
Qed.

End Relabelling.

Lemma swap_colours_inj u v : swap_colours u = swap_colours v -> u = v.
Proof.
  unfold swap_colours.
  destruct (Z.eqb_spec u 1); destruct (Z.eqb_spec u 2);
    destruct (Z.eqb_spec v 1); destruct (Z.eqb_spec v 2); lia.
Qed.

Lemma check_game_end_relabel_witness :
  exists r,
    check_game_end cross_board 5 = Done r /\
    check_game_end (relabel swap_colours cross_board) 5
    = Done (relabel_result swap_colours r).
Proof.
  apply (check_game_end_relabel swap_colours eq_refl swap_colours_inj
           cross_board 5 cross_board_square).
Defined.

(** ** evaluate_move looks at the neighbourhood only *)

(** X12. [evaluate_move] never reads what the target cell held: two square
    boards that differ at most on the target position get the same score
    there, so an occupied cell is scored as if the stone replaced its
    occupant. *)
Theorem evaluate_move_ignores_target (b b0 : board) N fuel x y c w :
  square b N -> square b0 N -> inside N x y ->
  (forall x' y', (x', y') <> (x, y) -> get b0 x' y' = get b x' y') ->
  evaluate_move fuel b0 x y c w N = evaluate_move fuel b x y c w N.
Proof.
  intros Hsq Hsq0 Hin Hsame. unfold evaluate_move.
  destruct (set_inside b N x y c Hsq Hin) as (b1 & -> & Hsq1 & Hg1 & Hf1).
  destruct (set_inside b0 N x y c Hsq0 Hin) as (b2 & -> & Hsq2 & Hg2 & Hf2).
  cbn [bind]. f_equal.
  apply (board_ext b2 b1 N Hsq2 Hsq1). intros u v _.
  destruct (decide ((u, v) = (x, y))) as [Heq|Hne].
  - injection Heq as -> ->. congruence.
  - rewrite Hf1, Hf2 by exact Hne. now apply Hsame.
Qed.

Lemma evaluate_move_ignores_target_witness :
  evaluate_move 6 (with_stones 2 [(1, 1)] cross_board) 1 1 1 sample_weights 5
  = evaluate_move 6 cross_board 1 1 1 sample_weights 5.
Proof.
  destruct (set_inside cross_board 5 1 1 2 cross_board_square
              ltac:(unfold inside; lia)) as (b' & Hset & Hsq' & _ & Hframe).
  assert (b' = with_stones 2 [(1, 1)] cross_board) as ->
      by (vm_compute in Hset; injection Hset as <-; reflexivity).
  apply (evaluate_move_ignores_target cross_board _ 5 6 1 1 1 sample_weights
           cross_board_square Hsq'); [unfold inside; lia | exact Hframe].
Defined.

(** ** The scorer and the win detector agree on fives *)






(** ** The scorer treats both players alike *)

Lemma set_relabel f (b b' : board) N x y c :
  square b N -> inside N x y -> set b x y c = Done b' ->
  set (relabel f b) x y (f c) = Done (relabel f b').
Proof.
  intros Hsq Hin Hset.
  destruct (set_inside b N x y c Hsq Hin) as (b0 & Hset0 & Hsq0 & Hg0 & Hf0).
  assert (b0 = b') as -> by congruence.
  destruct (set_inside (relabel f b) N x y (f c) (square_relabel f b N Hsq) Hin)
    as (b1 & -> & Hsq1 & Hg1 & Hf1).
  f_equal.
  apply (board_ext b1 (relabel f b') N Hsq1 (square_relabel f b' N Hsq0)).
  intros u v _. rewrite get_relabel.
  destruct (decide ((u, v) = (x, y))) as [Heq|Hne].
  - injection Heq as -> ->. now rewrite Hg1, Hg0.
  - rewrite Hf1, Hf0 by exact Hne. apply get_relabel.
Qed.

Lemma opposing_swap c :
  is_player c -> opposing (swap_colours c) = swap_colours (opposing c).
Proof. intros [-> | ->]; reflexivity. Qed.

Lemma is_player_swap c : is_player c -> is_player (swap_colours c).
Proof. intros [-> | ->]; [right|left]; reflexivity. Qed.

Lemma get_relabel_swap_iff (b : board) N x y v :
  square b N -> inside N x y ->
  (get (relabel swap_colours b) x y = Done (swap_colours v)
   <-> get b x y = Done v).
Proof.
  intros Hsq Hin. rewrite get_relabel.
  destruct (get_inside b N x y Hsq Hin) as [u ->]. split.
  - intros H. f_equal. apply swap_colours_inj. congruence.
  - congruence.
Qed.

Lemma run_length_swap (b : board) N c x y dx dy n :
  square b N ->
  run_length b N c x y dx dy n ->
  run_length (relabel swap_colours b) N (swap_colours c) x y dx dy n.
Proof.
  intros Hsq (Hn & Hcells & Hend). split; [exact Hn|]. split.
  - intros t Ht. destruct (Hcells t Ht) as [Hin Hget].
    split; [exact Hin|]. now apply (get_relabel_swap_iff b N).
  - intros [Hin Hget]. apply Hend. split; [exact Hin|].
    now apply (get_relabel_swap_iff b N).
Qed.

Lemma blocks_swap (b : board) N c x y :
  square b N -> is_player c ->
  (blocks (relabel swap_colours b) N (swap_colours c) x y
   <-> blocks b N c x y).
Proof.
  intros Hsq Hc. unfold blocks. rewrite (opposing_swap c Hc). split.
  - intros [Hin Hget]. split; [exact Hin|].
    now apply (get_relabel_swap_iff b N).
  - intros [Hin Hget]. split; [exact Hin|].
    now apply (get_relabel_swap_iff b N).
Qed.

Lemma axis_weight_swap (b : board) N x y c w dx dy s :
  square b N -> is_player c ->
  axis_weight b N x y c w dx dy s ->
  axis_weight (relabel swap_colours b) N x y (swap_colours c) w dx dy s.
Proof.
  intros Hsq Hc (fw & bw & blk & Hf & Hb & Hblk & ->).
  exists fw, bw, blk.
  split; [now apply run_length_swap|].
  split; [now apply run_length_swap|].
  split; [|reflexivity].
  rewrite !(blocks_swap b N c) by assumption. exact Hblk.
Qed.

(** X14. The scorer does not favour a player: exchanging the colours 1 and
    2 on the whole board and in the colour argument leaves the score of
    [evaluate_move] unchanged. *)
Theorem evaluate_move_colour_symmetry (b : board) N fuel x y c w :
  square b N -> inside N x y -> is_player c -> N < Z.of_nat fuel ->
  evaluate_move fuel (relabel swap_colours b) x y (swap_colours c) w N
  = evaluate_move fuel b x y c w N.
Proof.
  intros Hsq Hin Hc Hfuel. unfold evaluate_move.
  destruct (set_inside b N x y c Hsq Hin) as (b' & Hset & Hsq' & _).
  rewrite (set_relabel swap_colours b b' N x y c Hsq Hin Hset), Hset.
  cbn [bind].
  destruct (get_pattern_score_spec b' N fuel x y c w Hsq' Hin Hc Hfuel)
    as (s1 & s2 & s3 & s4 & H1 & H2 & H3 & H4 & ->).
  destruct (get_pattern_score_spec (relabel swap_colours b') N fuel x y
              (swap_colours c) w (square_relabel _ _ _ Hsq') Hin
              (is_player_swap c Hc) Hfuel)
    as (t1 & t2 & t3 & t4 & G1 & G2 & G3 & G4 & ->).
  rewrite (axis_weight_unique _ _ _ _ _ _ _ _ _ _ G1
             (axis_weight_swap _ _ _ _ _ _ _ _ _ Hsq' Hc H1)).
  rewrite (axis_weight_unique _ _ _ _ _ _ _ _ _ _ G2
             (axis_weight_swap _ _ _ _ _ _ _ _ _ Hsq' Hc H2)).
  rewrite (axis_weight_unique _ _ _ _ _ _ _ _ _ _ G3
             (axis_weight_swap _ _ _ _ _ _ _ _ _ Hsq' Hc H3)).
  rewrite (axis_weight_unique _ _ _ _ _ _ _ _ _ _ G4
             (axis_weight_swap _ _ _ _ _ _ _ _ _ Hsq' Hc H4)).
  reflexivity.
Qed.

Lemma evaluate_move_colour_symmetry_witness :
  evaluate_move 6 (relabel swap_colours cross_board) 1 1 2 sample_weights 5
  = evaluate_move 6 cross_board 1 1 1 sample_weights 5.
Proof.
  apply (evaluate_move_colour_symmetry cross_board 5 6 1 1 1 sample_weights
           cross_board_square).
  - unfold inside. lia.
  - left. reflexivity.
  - lia.
Defined.

(** ** mcts_optimize outside its intended range *)





(** X16. [mcts_optimize] does not validate [init_move]: on a square board,
    with at least one iteration, a start position outside the board makes
    the call undefined (the first candidate is written into the copy of the
    board without a bounds check). *)
Theorem mcts_optimize_outside_init (b : board) N fuel init c depth iterations :
  square b N -> ~ inside N (fst init) (snd init) -> 1 <= iterations ->
  mcts_optimize fuel b init c depth iterations N = Undefined.
Proof.
  intros Hsq Hout Hit. unfold mcts_optimize, mcts_optimize_with.
  rewrite (collect_candidates_spec b N init Hsq). cbn [bind app].
  cbn [best_candidate].
  destruct (Z.to_nat iterations) as [|n] eqn:Hn; [lia|].
  cbn [accumulate_score].
  rewrite (set_outside b N (fst init) (snd init) c Hsq Hout). reflexivity.
Qed.

Lemma mcts_optimize_outside_init_witness :
  mcts_optimize 6 cross_board (5, 5) 1 3 10 5 = Undefined.
Proof.
  apply (mcts_optimize_outside_init cross_board 5 6 (5, 5) 1 3 10
           cross_board_square).
  - unfold inside. cbn. lia.
  - lia.
Defined.

(** ** check_game_end and validate_move *)

Lemma validate_move_success (b : board) N x y p :
  inside N x y -> get b x y = Done 0 -> is_player p ->
  validate_move b x y p N = Done (true, "success"%string).
Proof.
  intros Hin Hget Hp. unfold validate_move.
  replace ((x <? 0) || (x >=? N) || (y <? 0) || (y >=? N)) with false
    by (unfold inside in Hin; lia).
  rewrite Hget. cbn [bind]. destruct Hp as [-> | ->]; reflexivity.
Qed.

(** X17. The end-of-game verdict and the move validator fit together on a
    square board: after a draw no move is accepted any more, whatever the
    position and the player code, and in an unfinished game some cell
    accepts a move of either player. *)
Theorem verdict_and_validation (b : board) N :
  square b N ->
  (check_game_end b N = Done Draw ->
   forall x y p,
     validate_move b x y p N <> Done (true, "success"%string))
  /\
  (check_game_end b N = Done Ongoing ->
   exists x y,
     forall p, is_player p ->
               validate_move b x y p N = Done (true, "success"%string)).
Proof.
  intros Hsq.
  destruct (check_game_end_cases b N Hsq)
    as [(a & i & j & c & _ & Hres)
       |[(_ & Hfull & Hres)|(_ & Hzero & Hres)]];
    rewrite Hres; split; try (intros H; discriminate H).
  - intros _ x y p Hok.
    destruct (validate_move_success_inv b N x y p Hok) as (Hin & Hget & _).
    exact (Hfull x y Hin Hget).
  - intros _. destruct Hzero as (x & y & Hin & Hget).
    exists x, y. intros p Hp. now apply validate_move_success.
Qed.

Lemma verdict_and_validation_witness :
  (check_game_end full_board 5 = Done Draw ->
   forall x y p,
     validate_move full_board x y p 5 <> Done (true, "success"%string))
  /\
  (check_game_end full_board 5 = Done Ongoing ->
   exists x y,
     forall p, is_player p ->
               validate_move full_board x y p 5
               = Done (true, "success"%string)).
Proof.
  apply (verdict_and_validation full_board 5 full_board_square).
Defined.

(** ** find_winning_move and evaluate_move *)


